(** * Skill-folder resolution and recursive retrieval

    A shallow embedding of the two transport entry points of the
    repository, [index.ts] (HTTP) and [src/stdio.mjs] (stdio): the GitHub
    token rotator, the folder resolver, the directory and file fetchers, the
    recursive collector, the per-skill orchestrator and the batch handler.

    Conventions of the model.
    - A JavaScript string is a [string]: a sequence of code units, here
      restricted to the 8-bit range. [String.length] is the JS [length].
    - The module-level [tokenIndex] and the outbound requests are threaded
      through an explicit [State]; a rejected promise or a thrown [Error] is
      the outcome [Throws] carrying the error message.
    - The network is a function from requests to outcomes, fixed for one
      run; it is a parameter of every effectful definition. *)

From Stdlib Require Import Ascii String QArith Qminmax Qround Lqa.
From stdpp Require Import base option list strings gmap pretty.

Local Open Scope string_scope.
Local Open Scope nat_scope.
Local Open Scope list_scope.

(* ===================================================================== *)
(** ** JavaScript string primitives *)
(* ===================================================================== *)

Module Js.

(** [s.split(sep)] for a one-character separator: always at least one piece. *)
Fixpoint split (sep : ascii) (s : string) : list string :=
  match s with
  | EmptyString => [EmptyString]
  | String c s' =>
      if Ascii.eqb c sep then EmptyString :: split sep s'
      else match split sep s' with
           | [] => [String c EmptyString]
           | p :: ps => String c p :: ps
           end
  end.

(** [parts.join(sep)]. *)
Definition join (sep : string) (parts : list string) : string :=
  String.concat sep parts.

(** [s.startsWith(p)]. *)
Fixpoint startsWith (s p : string) : bool :=
  match p, s with
  | EmptyString, _ => true
  | String _ _, EmptyString => false
  | String a p', String b s' => Ascii.eqb a b && startsWith s' p'
  end.

(** [s.substring(start)]: the code units from [start] on. *)
Fixpoint drop (n : nat) (s : string) : string :=
  match n, s with
  | O, _ => s
  | S n', String _ s' => drop n' s'
  | S _, EmptyString => EmptyString
  end.

(** [s.substring(0, n)]. *)
Fixpoint take (n : nat) (s : string) : string :=
  match n, s with
  | O, _ => EmptyString
  | S n', String c s' => String c (take n' s')
  | S _, EmptyString => EmptyString
  end.

(** [s.endsWith(suf)]: the search string is compared with the code units
    that end at [s.length]; a longer search string never matches. *)
Definition endsWith (s suf : string) : bool :=
  if String.length suf <=? String.length s
  then String.eqb (drop (String.length s - String.length suf) s) suf
  else false.

(** [s.includes(sub)]: [sub] occurs at some position of [s]. *)
Fixpoint includes (s sub : string) : bool :=
  startsWith s sub ||
  match s with
  | EmptyString => false
  | String _ s' => includes s' sub
  end.

(** [s.lastIndexOf(c)] for a one-character search string; [None] is -1. *)
Fixpoint lastIndexOf (c : ascii) (s : string) : option nat :=
  match s with
  | EmptyString => None
  | String a s' =>
      match lastIndexOf c s' with
      | Some i => Some (S i)
      | None => if Ascii.eqb a c then Some 0 else None
      end
  end.

(** [arr.pop()] on a fresh array: its last element, [None] for undefined. *)
Definition pop {A} (l : list A) : option A := last l.

(** [arr.filter(Boolean)] on strings: the empty string is the falsy one. *)
Definition filterBoolean (l : list string) : list string :=
  filter (λ s, s ≠ EmptyString) l.

(** [new Set(arr)]: insertion order, later duplicates dropped. *)
Fixpoint newSet (l : list string) : list string :=
  match l with
  | [] => []
  | x :: l' => x :: filter (λ y, y ≠ x) (newSet l')
  end.

(** [set.has(x)]. *)
Definition has (set : list string) (x : string) : bool :=
  bool_decide (x ∈ set).

(** Canonicalisation of a code unit under the [i] flag (no [u] flag): the
    upper-case mapping, kept here to the ASCII letters. The pattern of the
    program is ASCII, and a code unit outside ASCII never canonicalises to
    an ASCII one. *)
Definition canonicalize (c : ascii) : ascii :=
  let n := nat_of_ascii c in
  if (97 <=? n) && (n <=? 122) then ascii_of_nat (n - 32) else c.

(** A literal pattern matched case-insensitively at the start of [s];
    the result is what follows the match. *)
Fixpoint matchLiteralCI (pat s : string) : option string :=
  match pat, s with
  | EmptyString, _ => Some s
  | String _ _, EmptyString => None
  | String a pat', String b s' =>
      if Ascii.eqb (canonicalize a) (canonicalize b)
      then matchLiteralCI pat' s' else None
  end.

(** [/lit$/i.test(s)]: try every start position from the left; at each,
    the literal must match and be followed by the end of input. *)
Fixpoint testLiteralAtEndCI (lit s : string) : bool :=
  match matchLiteralCI lit s with
  | Some EmptyString => true
  | _ => match s with
         | EmptyString => false
         | String _ s' => testLiteralAtEndCI lit s'
         end
  end.

(** The double quote, for messages that embed one. *)
Definition dquote : string := String (ascii_of_nat 34) EmptyString.

(** A non-negative integer in a template literal. *)
Definition showNat (n : nat) : string := pretty (N.of_nat n).

End Js.

(* ===================================================================== *)
(** ** Requests, responses and the state threaded through a run *)
(* ===================================================================== *)

Definition GITHUB_API_URL : string := "https://api.github.com".

(** One entry of the Git Trees listing: [{path, type}]. *)
Record TreeEntry := { te_path : string; te_type : string }.

(** One entry of the Contents listing; an absent or null field is [None]. *)
Record Item := {
  it_type : string;
  it_path : option string;
  it_name : option string;
  it_download_url : option string
}.

(** What the code reads off a parsed JSON body: an array of items, or an
    object with optional [message] and [tree] fields. *)
Inductive Json :=
| JArray (items : list Item)
| JObject (message : option string) (tree : option (list TreeEntry)).

(** A body promise: rejected with an error message, or fulfilled. *)
Inductive Body (A : Type) :=
| Fails (msg : string)
| Yields (a : A).
Arguments Fails {A} msg.
Arguments Yields {A} a.

(** An HTTP response: [resp.status], [resp.text()] and [resp.json()]. *)
Record Response := {
  status : nat;
  text : Body string;
  json : Body Json
}.

(** [resp.ok]: a status in 200..299. *)
Definition ok (r : Response) : bool :=
  (200 <=? status r) && (status r <=? 299).

(** [fetch(url, {headers})] either rejects (network failure) or resolves. *)
Inductive FetchOutcome :=
| Rejected (msg : string)
| Resolved (r : Response).

Record Request := { url : string; headers : gmap string string }.

(** The mutable part of a run: the module-level [tokenIndex] and the
    requests issued so far, oldest first. The cursor is a count of calls;
    as a JavaScript number it is exact below 2^53, more calls than a run
    makes. *)
Record State := { tokenIndex : nat; issued : list Request }.

Definition initialState : State := {| tokenIndex := 0; issued := [] |}.

(** How an effectful call ends. [OutOfFuel] belongs to the model only: the
    recursion of the collector follows the remote directory depth. *)
Inductive Outcome (A : Type) :=
| Returns (a : A)
| Throws (msg : string)
| OutOfFuel.
Arguments Returns {A} a.
Arguments Throws {A} msg.
Arguments OutOfFuel {A}.

Definition M (A : Type) : Type := State → Outcome A * State.

Definition ret {A} (a : A) : M A := λ st, (Returns a, st).
Definition throw {A} (msg : string) : M A := λ st, (Throws msg, st).
Definition bind {A B} (m : M A) (k : A → M B) : M B := λ st,
  match m st with
  | (Returns a, st') => k a st'
  | (Throws msg, st') => (Throws msg, st')
  | (OutOfFuel, st') => (OutOfFuel, st')
  end.

Notation "x <~ m ;; k" := (bind m (λ x, k))
  (at level 100, m at next level, right associativity).

(** [try { body } catch (err) { handler(err.message) }]. *)
Definition tryCatch {A} (body : M A) (handler : string → M A) : M A := λ st,
  match body st with
  | (Throws msg, st') => handler msg st'
  | r => r
  end.

(* ===================================================================== *)
(** ** GitHub token round-robin *)
(* ===================================================================== *)

Section Rotator.
Variable githubTokens : list string.

(** [getGitHubHeaders()]. An out-of-range array read is [undefined], which a
    template literal prints as such; the modulus keeps the read in range. *)
Definition getGitHubHeaders : M (gmap string string) := λ st,
  let headers : gmap string string :=
    {[ "Accept" := "application/vnd.github.v3+json" ]} in
  if 0 <? length githubTokens then
    let token :=
      default "undefined"
        (githubTokens !! (tokenIndex st mod length githubTokens)) in
    let st' := {| tokenIndex := S (tokenIndex st); issued := issued st |} in
    (Returns (<["Authorization" := "Bearer " +:+ token]> headers), st')
  else (Returns headers, st).

(** The state after [n] consecutive calls. *)
Fixpoint afterCalls (n : nat) (st : State) : State :=
  match n with
  | O => st
  | S n' => snd (getGitHubHeaders (afterCalls n' st))
  end.

End Rotator.

(* ===================================================================== *)
(** ** Data returned to the caller *)
(* ===================================================================== *)

(** [{ folderPath, error }], each possibly null. *)
Record FolderMatch := {
  folderPath : option string;
  findError : option string
}.

(** [{ path, name, content }]. *)
Record FileRecord := {
  path : string;
  name : string;
  content : string
}.

(** [{ id, files, error }]. *)
Record SkillDetailResult := {
  id : string;
  files : list FileRecord;
  error : option string
}.

(** What a tool handler hands back: the per-skill results, or one error
    text for the whole call ([isError]). The JSON rendering of the results
    is left to the transport. *)
Inductive ToolResult :=
| ToolSkills (skills : list SkillDetailResult)
| ToolError (message : string).

(** A string in a boolean position: null and the empty string are falsy. *)
Definition truthy (s : option string) : bool :=
  match s with
  | Some s' => negb (String.eqb s' EmptyString)
  | None => false
  end.

(** [arr.reduce(f)] without an initial value, on a non-empty array. *)
Definition reduce {A} (f : A → A → A) (first : A) (rest : list A) : A :=
  foldl f first rest.

(** [(a, b) => a.length <= b.length ? a : b]. *)
Definition shorter (a b : string) : string :=
  if String.length a <=? String.length b then a else b.

(** The filter of the exact tier:
    [e.type === "tree" && (e.path === skillId || e.path.endsWith(`/${skillId}`))]. *)
Definition isExactMatch (skillId : string) (e : TreeEntry) : bool :=
  String.eqb (te_type e) "tree" &&
  (String.eqb (te_path e) skillId || Js.endsWith (te_path e) ("/" +:+ skillId)).

Definition exactCandidates (tree : list TreeEntry) (skillId : string)
  : list string :=
  te_path <$> filter (λ e, isExactMatch skillId e = true) tree.

(** [mapM]: run [f] on each element from left to right. *)
Fixpoint mapM {A B} (f : A → M B) (l : list A) : M (list B) :=
  match l with
  | [] => ret []
  | x :: l' => y <~ f x ;; ys <~ mapM f l' ;; ret (y :: ys)
  end.

(* ===================================================================== *)
(** ** Fetchers and the recursive collector (identical in both files) *)
(* ===================================================================== *)

Section World.
Variable githubTokens : list string.
Variable net : Request → FetchOutcome.

(** [await fetch(url, { headers })]: the request is recorded, and the
    promise rejects or resolves as the network decides. *)
Definition fetch (u : string) (h : gmap string string) : M Response := λ st,
  let rq := {| url := u; headers := h |} in
  let st' := {| tokenIndex := tokenIndex st; issued := issued st ++ [rq] |} in
  match net rq with
  | Rejected msg => (Throws msg, st')
  | Resolved r => (Returns r, st')
  end.

(** [await resp.json()]. *)
Definition respJson (r : Response) : M Json :=
  match json r with
  | Yields j => ret j
  | Fails msg => throw msg
  end.

(** [await resp.text()]. *)
Definition respText (r : Response) : M string :=
  match text r with
  | Yields t => ret t
  | Fails msg => throw msg
  end.

(** [await resp.json().catch(() => ({}))]. *)
Definition respJsonOrEmpty (r : Response) : Json :=
  match json r with
  | Yields j => j
  | Fails _ => JObject None None
  end.

(** [body.message]. *)
Definition messageOf (j : Json) : option string :=
  match j with
  | JObject m _ => m
  | JArray _ => None
  end.

(** [data.tree ?? []]. *)
Definition treeOf (j : Json) : list TreeEntry :=
  match j with
  | JObject _ (Some t) => t
  | _ => []
  end.

Definition treesUrl (source : string) : string :=
  GITHUB_API_URL +:+ "/repos/" +:+ source +:+ "/git/trees/HEAD?recursive=1".

Definition contentsUrl (source p : string) : string :=
  GITHUB_API_URL +:+ "/repos/" +:+ source +:+ "/contents/" +:+ p.

(** [fetchFolderContents(source, path)]: throws on 403, null on any other
    non-success status or a non-array body. *)
Definition fetchFolderContents (source p : string) : M (option (list Item)) :=
  h <~ getGitHubHeaders githubTokens ;;
  resp <~ fetch (contentsUrl source p) h ;;
  if status resp =? 403 then
    throw (default "GitHub rate limit exceeded"
             (messageOf (respJsonOrEmpty resp)))
  else if negb (ok resp) then ret None
  else
    items <~ respJson resp ;;
    ret (match items with JArray l => Some l | JObject _ _ => None end).

(** [fetchFileContent(downloadUrl)]: every failure ends in null. *)
Definition fetchFileContent (downloadUrl : string) : M (option string) :=
  tryCatch
    (resp <~ fetch downloadUrl ∅ ;;
     if ok resp then t <~ respText resp ;; ret (Some t) else ret None)
    (λ _, ret None).

(** The callback mapped over the file entries in [collectFiles]. *)
Definition downloadEntry (entry : Item) : M (option FileRecord) :=
  if negb (truthy (it_download_url entry)) then ret None
  else
    c <~ fetchFileContent (default "" (it_download_url entry)) ;;
    match c with
    | None => ret None
    | Some c' =>
        ret (Some {| path := default "" (it_path entry);
                     name := default "" (it_name entry);
                     content := c' |})
    end.

(** The [for (const dir of dirEntries)] loop of [collectFiles]; [recur] is
    the recursive call. *)
Fixpoint forEachDir (recur : list Item → M (list FileRecord))
    (source : string) (dirs : list Item) (files : list FileRecord)
  : M (list FileRecord) :=
  match dirs with
  | [] => ret files
  | dir :: rest =>
      if negb (truthy (it_path dir)) then forEachDir recur source rest files
      else
        subItems <~ fetchFolderContents source (default "" (it_path dir)) ;;
        match subItems with
        | Some sub =>
            subFiles <~ recur sub ;;
            forEachDir recur source rest (files ++ subFiles)
        | None => forEachDir recur source rest files
        end
  end.

Definition fileEntries (items : list Item) : list Item :=
  filter (λ f, it_type f = "file") items.

Definition dirEntries (items : list Item) : list Item :=
  filter (λ f, it_type f = "dir") items.

(** [collectFiles(source, items)]. All downloads are started in listing
    order and awaited together; none of them can reject. *)
Fixpoint collectFiles (fuel : nat) (source : string) (items : list Item)
  : M (list FileRecord) :=
  match fuel with
  | O => λ st, (OutOfFuel, st)
  | S fuel' =>
      fileResults <~ mapM downloadEntry (fileEntries items) ;;
      forEachDir (collectFiles fuel' source) source (dirEntries items)
        (omap (λ f, f) fileResults)
  end.

End World.

(** [Invalid skill ID format. Expected "owner/repo/skillId", got "${skillId}"]. *)
Definition invalidIdMessage (skillId : string) : string :=
  "Invalid skill ID format. Expected " +:+ Js.dquote +:+ "owner/repo/skillId"
  +:+ Js.dquote +:+ ", got " +:+ Js.dquote +:+ skillId +:+ Js.dquote.

(** [parts[i]] in a template literal. *)
Definition part (parts : list string) (i : nat) : string :=
  default "undefined" (parts !! i).

(* ===================================================================== *)
(** ** index.ts: the HTTP entry point *)
(* ===================================================================== *)

Module Http.
Section World.
Variable githubTokens : list string.
Variable net : Request → FetchOutcome.

(** [findSkillFolder(source, skillId)] of index.ts: exact tier only. *)
Definition findSkillFolder (source skillId : string) : M FolderMatch :=
  h <~ getGitHubHeaders githubTokens ;;
  resp <~ fetch net (treesUrl source) h ;;
  if status resp =? 403 then
    ret {| folderPath := None;
           findError := Some (default "GitHub rate limit exceeded"
                                (messageOf (respJsonOrEmpty resp))) |}
  else if negb (ok resp) then
    ret {| folderPath := None;
           findError := Some ("GitHub Trees API returned "
                              +:+ Js.showNat (status resp)) |}
  else
    data <~ respJson resp ;;
    let tree := treeOf data in
    match exactCandidates tree skillId with
    | [] =>
        ret {| folderPath := None;
               findError := Some "Skill folder not found in repository" |}
    | first :: rest =>
        ret {| folderPath := Some (reduce shorter first rest);
               findError := None |}
    end.

(** [fetchSkillDetails(skillId)] of index.ts. *)
Definition fetchSkillDetails (fuel : nat) (skillId : string)
  : M SkillDetailResult :=
  let parts := Js.split "/" skillId in
  if length parts <? 3 then
    ret {| id := skillId; files := [];
           error := Some (invalidIdMessage skillId) |}
  else
    let source := part parts 0 +:+ "/" +:+ part parts 1 in
    let skillName := Js.join "/" (drop 2 parts) in
    found <~ findSkillFolder source skillName ;;
    if truthy (findError found) || negb (truthy (folderPath found)) then
      ret {| id := skillId; files := [];
             error := Some (default "Skill folder not found"
                              (findError found)) |}
    else
      folderItems <~
        fetchFolderContents githubTokens net source
          (default "" (folderPath found)) ;;
      match folderItems with
      | None =>
          ret {| id := skillId; files := [];
                 error := Some "Could not fetch folder contents from GitHub" |}
      | Some items =>
          tryCatch
            (fs <~ collectFiles githubTokens net fuel source items ;;
             ret {| id := skillId; files := fs; error := None |})
            (λ msg, ret {| id := skillId; files := []; error := Some msg |})
      end.

(** The [get-skill-details] handler of index.ts. [Promise.all] lists the
    results in input order and rejects as soon as one promise rejects; here
    the identifiers are run one after the other, which orders the requests
    and hands out the tokens in one of the ways the event loop may. Progress
    reporting is optional and left out. *)
Definition getSkillDetails (fuel : nat) (skill_ids : list string)
  : M ToolResult :=
  tryCatch
    (results <~ mapM (fetchSkillDetails fuel) skill_ids ;;
     ret (ToolSkills results))
    (λ msg, ret (ToolError ("Failed to fetch skill details: " +:+ msg))).

End World.
End Http.

(* ===================================================================== *)
(** ** src/stdio.mjs: the stdio entry point *)
(* ===================================================================== *)

(** A JavaScript number as far as the scorer needs it: a rational, or NaN.
    The only division has a numerator that never exceeds its denominator,
    so a zero denominator comes with a zero numerator. The rationals stand
    for the doubles the code computes: quotients of two set sizes, which
    the doubles tell apart and order as the rationals do for any name a
    repository can hold. *)
Inductive Number :=
| Num (q : Q)
| NaN.

Module Stdio.

(** [a / b] on two set sizes. *)
Definition divide (a b : nat) : Number :=
  if b =? 0 then NaN else Num (Z.of_nat a # Pos.of_nat b).

(** [Math.min(score + 0.5, 1.0)]. *)
Definition addBonus (x : Number) : Number :=
  match x with
  | Num q => Num (Qmin (q + (1 # 2)) 1)
  | NaN => NaN
  end.

(** [x >= 0.30]; every comparison with NaN is false. *)
Definition atLeastThreshold (x : Number) : bool :=
  match x with
  | Num q => Qle_bool (3 # 10) q
  | NaN => false
  end.

(** [Math.round(x * 100)] in a template literal: halves round up. *)
Definition showPercent (x : Number) : string :=
  match x with
  | Num q => pretty (Qfloor (q * 100 + (1 # 2)))
  | NaN => "NaN"
  end.

(** [{ folderPath, folderName, score }]. *)
Record Candidate := {
  c_folderPath : string;
  c_folderName : string;
  c_score : Number
}.

(** The tokens of a name: [new Set(name.split("-").filter(Boolean))]. *)
Definition tokens (s : string) : list string :=
  Js.newSet (Js.filterBoolean (Js.split "-" s)).

(** The callback mapped over [skillFolders] in the fuzzy tier. *)
Definition scoreCandidate (skillId : string) (fp : string) : Candidate :=
  let skillIdTokens := tokens skillId in
  let folderName := default "" (Js.pop (Js.split "/" fp)) in
  let folderTokens := tokens folderName in
  let commonTokens :=
    Js.newSet (filter (λ t, Js.has skillIdTokens t = true) folderTokens) in
  let score :=
    divide (length commonTokens)
           (Nat.max (length folderTokens) (length skillIdTokens)) in
  let score :=
    if Js.includes skillId folderName || Js.includes folderName skillId
    then addBonus score else score in
  {| c_folderPath := fp; c_folderName := folderName; c_score := score |}.

(** The comparator [(a, b) => b.score - a.score] is positive exactly when
    [a] must come after [b]; a NaN result counts as zero. *)
Definition comesAfter (a b : Candidate) : bool :=
  match c_score b, c_score a with
  | Num qb, Num qa => negb (Qle_bool (qb - qa) 0)
  | _, _ => false
  end.

(** [candidates.sort(cmp)]: the stable sort, as insertion from the left.
    Each element in turn is put in front of the first of the elements
    already placed that must come after it, or else at the end. *)
Fixpoint insertSorted (x : Candidate) (sorted : list Candidate)
  : list Candidate :=
  match sorted with
  | [] => [x]
  | y :: rest =>
      if comesAfter y x then x :: y :: rest else y :: insertSorted x rest
  end.

Definition sortCandidates (l : list Candidate) : list Candidate :=
  foldl (λ acc x, insertSorted x acc) [] l.

(** [/SKILL\.md$/i.test(e.path)] on a blob. *)
Definition isSkillMd (e : TreeEntry) : bool :=
  String.eqb (te_type e) "blob" &&
  Js.testLiteralAtEndCI "SKILL.md" (te_path e).

(** The parent folder of a manifest path; the root is the empty string. *)
Definition parentFolder (p : string) : string :=
  match Js.lastIndexOf "/" p with
  | None => ""
  | Some lastSlash => Js.take lastSlash p
  end.

Definition noMatchMessage (best : Candidate) : string :=
  "No matching skill folder found (best match: " +:+ c_folderName best
  +:+ " at " +:+ showPercent (c_score best) +:+ "%)".

(** Tier 4 of [findSkillFolder]: score, sort, threshold. The tier runs on
    two folders or more, so [candidates[0]] exists; the first branch below
    is never taken. *)
Definition fuzzyMatch (skillId : string) (skillFolders : list string)
  : FolderMatch :=
  let candidates := scoreCandidate skillId <$> skillFolders in
  match sortCandidates candidates with
  | [] => {| folderPath := None; findError := None |}
  | best :: _ =>
      if atLeastThreshold (c_score best)
      then {| folderPath := Some (c_folderPath best); findError := None |}
      else {| folderPath := None; findError := Some (noMatchMessage best) |}
  end.

(** The tiers of [findSkillFolder] once the tree is at hand. *)
Definition resolveInTree (tree : list TreeEntry) (skillId : string)
  : FolderMatch :=
  match exactCandidates tree skillId with
  | first :: rest =>
      {| folderPath := Some (reduce shorter first rest); findError := None |}
  | [] =>
      let skillMdEntries := filter (λ e, isSkillMd e = true) tree in
      match skillMdEntries with
      | [] => {| folderPath := None;
                 findError := Some "No SKILL.md files found in repository" |}
      | _ =>
          let skillFolders := (λ e, parentFolder (te_path e)) <$> skillMdEntries in
          match skillFolders with
          | [only] => {| folderPath := Some only; findError := None |}
          | _ => fuzzyMatch skillId skillFolders
          end
      end
  end.

Section World.
Variable githubTokens : list string.
Variable net : Request → FetchOutcome.

(** [findSkillFolder(source, skillId)] of stdio.mjs. *)
Definition findSkillFolder (source skillId : string) : M FolderMatch :=
  h <~ getGitHubHeaders githubTokens ;;
  resp <~ fetch net (treesUrl source) h ;;
  if status resp =? 403 then
    ret {| folderPath := None;
           findError := Some (default "GitHub rate limit exceeded"
                                (messageOf (respJsonOrEmpty resp))) |}
  else if negb (ok resp) then
    ret {| folderPath := None;
           findError := Some ("GitHub Trees API returned "
                              +:+ Js.showNat (status resp)) |}
  else
    data <~ respJson resp ;;
    ret (resolveInTree (treeOf data) skillId).

(** [fetchSkillDetails(skillId)] of stdio.mjs. *)
Definition fetchSkillDetails (fuel : nat) (skillId : string)
  : M SkillDetailResult :=
  let parts := Js.split "/" skillId in
  if length parts <? 3 then
    ret {| id := skillId; files := [];
           error := Some (invalidIdMessage skillId) |}
  else
    let source := part parts 0 +:+ "/" +:+ part parts 1 in
    let skillName := Js.join "/" (drop 2 parts) in
    found <~ findSkillFolder source skillName ;;
    if truthy (findError found) || bool_decide (folderPath found = None) then
      ret {| id := skillId; files := [];
             error := Some (default "Skill folder not found"
                              (findError found)) |}
    else
      folderItems <~
        fetchFolderContents githubTokens net source
          (default "" (folderPath found)) ;;
      match folderItems with
      | None =>
          ret {| id := skillId; files := [];
                 error := Some "Could not fetch folder contents from GitHub" |}
      | Some items =>
          tryCatch
            (fs <~ collectFiles githubTokens net fuel source items ;;
             ret {| id := skillId; files := fs; error := None |})
            (λ msg, ret {| id := skillId; files := []; error := Some msg |})
      end.

(** The [get-skill-details] handler of stdio.mjs; identifiers as in the
    HTTP handler. *)
Definition getSkillDetails (fuel : nat) (skill_ids : list string)
  : M ToolResult :=
  tryCatch
    (results <~ mapM (fetchSkillDetails fuel) skill_ids ;;
     ret (ToolSkills results))
    (λ msg, ret (ToolError ("Error: " +:+ msg))).

End World.
End Stdio.

(* ===================================================================== *)
(** ** Specification-side notions *)
(* ===================================================================== *)

(** What a download of [u] ends in, read off the network alone: the text of
    a successful response, nothing otherwise. *)
Definition downloadResult (net : Request → FetchOutcome) (u : string)
  : option string :=
  match net {| url := u; headers := ∅ |} with
  | Resolved r =>
      if ok r then match text r with Yields t => Some t | Fails _ => None end
      else None
  | Rejected _ => None
  end.

(** A file entry with a download reference whose download succeeds. *)
Definition downloadable (net : Request → FetchOutcome) (e : Item) : Prop :=
  it_type e = "file" ∧
  ∃ u, it_download_url e = Some u ∧ u ≠ "" ∧ is_Some (downloadResult net u).

(** The record of a listing entry, when it is a downloadable file. *)
Definition recordOf (net : Request → FetchOutcome) (e : Item)
  : option FileRecord :=
  if decide (it_type e = "file") then
    match it_download_url e with
    | Some u =>
        if decide (u = "") then None
        else
          match downloadResult net u with
          | Some c => Some {| path := default "" (it_path e);
                              name := default "" (it_name e);
                              content := c |}
          | None => None
          end
    | None => None
    end
  else None.

(** The records of the downloadable file entries of a listing, in order. *)
Definition directFiles (net : Request → FetchOutcome) (items : list Item)
  : list FileRecord :=
  omap (recordOf net) items.

(** The state after the requests [rqs] were issued and nothing else
    happened. *)
Definition withRequests (st : State) (rqs : list Request) : State :=
  {| tokenIndex := tokenIndex st; issued := issued st ++ rqs |}.

(** ASCII lower-casing, the usual reading of a case-insensitive match. *)
Definition lowerAscii (c : ascii) : ascii :=
  let n := nat_of_ascii c in
  if (65 <=? n) && (n <=? 90) then ascii_of_nat (n + 32) else c.

Fixpoint lowerCase (s : string) : string :=
  match s with
  | EmptyString => EmptyString
  | String c s' => String (lowerAscii c) (lowerCase s')
  end.

(** The tokens of a name as a finite set: its non-empty pieces between
    dashes. *)
Definition tokenSet (s : string) : gset string :=
  list_to_set (filter (λ t, t ≠ "") (Js.split "-" s)).

(** [a] occurs inside [b]. *)
Definition substringOf (a b : string) : Prop :=
  ∃ pre post, b = pre +:+ a +:+ post.

(** The entries the exact tier looks for. *)
Definition namesFolder (skillId : string) (e : TreeEntry) : Prop :=
  te_type e = "tree" ∧
  (te_path e = skillId ∨ ∃ p, te_path e = p +:+ "/" +:+ skillId).

(** The entry the reduction of the exact tier settles on: the first of the
    shortest among the entries that name the folder. *)
Definition firstShortest (skillId : string) (tree : list TreeEntry)
    (i : nat) (e : TreeEntry) : Prop :=
  tree !! i = Some e ∧ namesFolder skillId e ∧
  ∀ j e', tree !! j = Some e' → namesFolder skillId e' →
    String.length (te_path e) ≤ String.length (te_path e')
    ∧ (String.length (te_path e') = String.length (te_path e) → i ≤ j).

(** A network that serves the tree of [source], whatever the headers. *)
Definition servesTree (net : Request → FetchOutcome) (source : string)
    (data : Json) : Prop :=
  ∃ resp, (∀ h, net {| url := treesUrl source; headers := h |} = Resolved resp)
          ∧ ok resp = true ∧ json resp = Yields data.

(** The number of occurrences of a code unit in a string. *)
Fixpoint countChar (c : ascii) (s : string) : nat :=
  match s with
  | EmptyString => 0
  | String a s' => (if Ascii.eqb a c then 1 else 0) + countChar c s'
  end.

(** [n] is the final path segment of the folder path [d]. *)
Definition finalSegment (d n : string) : Prop :=
  countChar "/" n = 0 ∧ (d = n ∨ ∃ p, d = p +:+ "/" +:+ n).


(** One of the two strings occurs inside the other. *)
Definition eitherContains (name skillId : string) : Prop :=
  substringOf name skillId ∨ substringOf skillId name.


(** [z] is [q] as a whole percentage, halves rounded up. *)
Definition isPercent (q : Q) (z : Z) : Prop :=
  (inject_Z z - (1 # 2) <= q * 100)%Q ∧ (q * 100 < inject_Z z + (1 # 2))%Q.

(** The entries the manifest scan looks for. *)
Definition manifestLike (e : TreeEntry) : Prop :=
  te_type e = "blob" ∧
  ∃ p t, te_path e = p +:+ t ∧ lowerCase t = "skill.md".

(* ===================================================================== *)
(** ** Trees, listings and networks for the examples *)
(* ===================================================================== *)

Module Fixtures.

Definition okJson (j : Json) : FetchOutcome :=
  Resolved {| status := 200; text := Fails "body used"; json := Yields j |}.

Definition okText (t : string) : FetchOutcome :=
  Resolved {| status := 200; text := Yields t; json := Fails "not JSON" |}.

Definition forbidden (msg : string) : FetchOutcome :=
  Resolved {| status := 403; text := Fails "body used";
              json := Yields (JObject (Some msg) None) |}.

Definition notFound : FetchOutcome :=
  Resolved {| status := 404; text := Yields "Not Found";
              json := Yields (JObject (Some "Not Found") None) |}.

Definition dir (p : string) : TreeEntry := {| te_path := p; te_type := "tree" |}.
Definition blob (p : string) : TreeEntry := {| te_path := p; te_type := "blob" |}.

Definition skillsTree : list TreeEntry :=
  [dir "vendor/pdf"; dir "pdf"; blob "pdf/SKILL.md"; dir "docs"].

(** The repository acme/skills has the folder pdf; its tree is served, and
    the listing of pdf is refused with 403 (rate limit exhausted). *)
Definition rateLimitedNet (rq : Request) : FetchOutcome :=
  if String.eqb (url rq) (treesUrl "acme/skills") then
    okJson (JObject None (Some skillsTree))
  else if String.eqb (url rq) (contentsUrl "acme/skills" "pdf") then
    forbidden "API rate limit exceeded"
  else notFound.

(** The same repository when the listing of pdf is served and the
    listing of its sub-directory pdf/references is refused with 403. *)
Definition pdfListing : list Item :=
  [ {| it_type := "file"; it_path := Some "pdf/SKILL.md";
       it_name := Some "SKILL.md"; it_download_url := Some "raw/pdf/SKILL.md" |};
    {| it_type := "dir"; it_path := Some "pdf/references";
       it_name := Some "references"; it_download_url := None |} ].

Definition nestedRateLimitNet (rq : Request) : FetchOutcome :=
  if String.eqb (url rq) (treesUrl "acme/skills") then
    okJson (JObject None (Some skillsTree))
  else if String.eqb (url rq) (contentsUrl "acme/skills" "pdf") then
    okJson (JArray pdfListing)
  else if String.eqb (url rq) (contentsUrl "acme/skills" "pdf/references") then
    forbidden "API rate limit exceeded"
  else if String.eqb (url rq) "raw/pdf/SKILL.md" then okText "# PDF"
  else notFound.

(** One folder holding two files whose names end in skill.md. *)
Definition twoManifestsOneFolder : list TreeEntry :=
  [dir "tools"; blob "tools/SKILL.md"; blob "tools/old-skill.md"].

(** A single manifest-like file, not named SKILL.md. *)
Definition onlyMySkill : list TreeEntry :=
  [dir "docs"; blob "docs/my-skill.md"; blob "README.md"].

(** Manifests at the root and in one folder, and the repository acme/mono
    that has them. *)
Definition rootAndFolder : list TreeEntry :=
  [blob "SKILL.md"; dir "examples"; blob "examples/SKILL.md"].

Definition monoNet (rq : Request) : FetchOutcome :=
  if String.eqb (url rq) (treesUrl "acme/mono") then
    okJson (JObject None (Some rootAndFolder))
  else notFound.

(** Two skill folders listed without their directory entries. *)
Definition weatherBlobs : list TreeEntry :=
  [blob "weather-widgets/SKILL.md"; blob "weather/SKILL.md"].

(** Three file entries, the first without a download reference. *)
Definition threeFiles : list Item :=
  [ {| it_type := "file"; it_path := Some "pdf/LICENSE";
       it_name := Some "LICENSE"; it_download_url := None |};
    {| it_type := "file"; it_path := Some "pdf/SKILL.md";
       it_name := Some "SKILL.md"; it_download_url := Some "raw/pdf/SKILL.md" |};
    {| it_type := "file"; it_path := Some "pdf/forms.md";
       it_name := Some "forms.md"; it_download_url := Some "raw/pdf/forms.md" |} ].

Definition rawNet (rq : Request) : FetchOutcome :=
  if String.eqb (url rq) "raw/pdf/SKILL.md" then okText "# PDF"
  else if String.eqb (url rq) "raw/pdf/forms.md" then okText "forms"
  else notFound.

End Fixtures.


(* ===================================================================== *)
(** ** The request stream, as the rotator is meant to shape it *)
(* ===================================================================== *)

(** The headers the rotator hands out when its cursor is [c]. *)
Definition rotatorHeaders (pool : list string) (c : nat)
  : gmap string string :=
  match pool with
  | [] => {[ "Accept" := "application/vnd.github.v3+json" ]}
  | _ :: _ =>
      <["Authorization" :=
          "Bearer " +:+ default "undefined" (pool !! (c mod length pool))]>
        {[ "Accept" := "application/vnd.github.v3+json" ]}
  end.

(** The cursor after one more call of the rotator. *)
Definition nextCursor (pool : list string) (c : nat) : nat :=
  match pool with
  | [] => c
  | _ :: _ => S c
  end.

(** A request to the GitHub API carrying the rotator's headers for [c]. *)
Definition isApiRequest (pool : list string) (c : nat) (rq : Request) : Prop :=
  headers rq = rotatorHeaders pool c
  ∧ Js.startsWith (url rq) (GITHUB_API_URL +:+ "/repos/") = true.

(** Reading a stream of requests from cursor [c]: a request without headers
    is a download and leaves the cursor alone; any other request has to be
    an API request with the headers of the current cursor, and moves the
    cursor on. The result is the cursor at the end, if the stream fits. *)
Fixpoint replay (pool : list string) (c : nat) (rqs : list Request)
  : option nat :=
  match rqs with
  | [] => Some c
  | rq :: rest =>
      if decide (headers rq = ∅) then replay pool c rest
      else if decide (isApiRequest pool c rq)
           then replay pool (nextCursor pool c) rest
           else None
  end.


(** [st'] is [st] after a stream of requests that fits the rotation. *)
Definition Extends (pool : list string) (st st' : State) : Prop :=
  ∃ new, issued st' = issued st ++ new
         ∧ replay pool (tokenIndex st) new = Some (tokenIndex st').

(** An effectful call that, however it ends, has only added such a
    stream. *)
Definition Traced {A} (pool : list string) (m : M A) : Prop :=
  ∀ st o st', m st = (o, st') → Extends pool st st'.


(* ===================================================================== *)
(** ** Shapes of the results *)
(* ===================================================================== *)

(** A folder match with exactly one of its two fields set. *)
Definition OnePopulated (r : FolderMatch) : Prop :=
  (folderPath r = None ∧ findError r ≠ None)
  ∨ (folderPath r ≠ None ∧ findError r = None).

(** A skill result that does not carry files next to an error. *)
Definition FilesOrError (r : SkillDetailResult) : Prop :=
  error r = None ∨ files r = [].

(** Where a resolved folder may come from: a directory of the tree that
    names the skill, or, when there is none, the parent of a manifest-like
    blob of the tree. *)
Definition comesFromTree (tree : list TreeEntry) (skillId p : string) : Prop :=
  (∃ e, e ∈ tree ∧ namesFolder skillId e ∧ te_path e = p)
  ∨ ((∀ e, e ∈ tree → ¬ namesFolder skillId e)
     ∧ ∃ e, e ∈ tree ∧ manifestLike e ∧ Stdio.parentFolder (te_path e) = p).

(* ===================================================================== *)
(** ** The collector, seen from outside *)
(* ===================================================================== *)

(** The download a listing entry calls for: one request without headers
    for a file entry that has a download reference. *)
Definition downloadRequest (e : Item) : option Request :=
  if decide (it_type e = "file") then
    match it_download_url e with
    | Some u => if decide (u = "") then None
                else Some {| url := u; headers := ∅ |}
    | None => None
    end
  else None.

Definition downloadRequests (items : list Item) : list Request :=
  omap downloadRequest items.

(** The entries the collector acts on: files with a download reference and
    directories with a path. *)
Definition relevant (e : Item) : Prop :=
  (it_type e = "file" ∧ truthy (it_download_url e) = true)
  ∨ (it_type e = "dir" ∧ truthy (it_path e) = true).

(** The directory tree below a listing, as the network serves it, is at
    most [d] levels deep: a sub-directory whose listing is served as an
    array is one level, and its own listing is at most [d - 1] deep. *)
Fixpoint withinDepth (net : Request → FetchOutcome) (source : string)
    (d : nat) (items : list Item) : Prop :=
  ∀ e p h r sub,
    e ∈ items → it_type e = "dir" → it_path e = Some p → p ≠ "" →
    net {| url := contentsUrl source p; headers := h |} = Resolved r →
    ok r = true → json r = Yields (JArray sub) →
    match d with
    | O => False
    | S d' => withinDepth net source d' sub
    end.

(* ===================================================================== *)
(** ** More JavaScript primitives *)
(* ===================================================================== *)

Module JsMore.

(** White space and line terminators as [trim] sees them, on the 8-bit
    range: tab, line feed, vertical tab, form feed, carriage return, space
    and no-break space. *)
Definition isWhiteSpace (c : ascii) : bool :=
  let n := nat_of_ascii c in
  ((9 <=? n) && (n <=? 13)) || (n =? 32) || (n =? 160).

(** [s.trimStart()]. *)
Fixpoint trimStart (s : string) : string :=
  match s with
  | EmptyString => EmptyString
  | String c s' => if isWhiteSpace c then trimStart s' else s
  end.

(** [s.trimEnd()]. *)
Fixpoint trimEnd (s : string) : string :=
  match s with
  | EmptyString => EmptyString
  | String c s' =>
      match trimEnd s' with
      | EmptyString => if isWhiteSpace c then EmptyString
                       else String c EmptyString
      | String d t => String c (String d t)
      end
  end.

(** [s.trim()]. *)
Definition trim (s : string) : string := trimEnd (trimStart s).

(** The code units that [URLSearchParams] leaves as they are: the ASCII
    letters and digits and the four marks star, dash, dot and underscore. *)
Definition isFormSafe (c : ascii) : bool :=
  let n := nat_of_ascii c in
  ((48 <=? n) && (n <=? 57)) || ((65 <=? n) && (n <=? 90))
  || ((97 <=? n) && (n <=? 122))
  || (n =? 42) || (n =? 45) || (n =? 46) || (n =? 95).

Definition hexDigit (n : nat) : ascii :=
  ascii_of_nat (if n <? 10 then 48 + n else 55 + n).

(** One byte, percent-encoded with upper-case digits. *)
Definition percentByte (n : nat) : string :=
  String "%" (String (hexDigit (n / 16)) (String (hexDigit (n mod 16))
                                                 EmptyString)).

(** One code unit in a serialised [URLSearchParams] value: a space is a
    plus sign, any other unsafe code unit the percent-encoding of its
    UTF-8 bytes (two bytes from 128 on). *)
Definition formEncodeUnit (c : ascii) : string :=
  let n := nat_of_ascii c in
  if isFormSafe c then String c EmptyString
  else if n =? 32 then "+"
  else if n <? 128 then percentByte n
  else percentByte (192 + n / 64) +:+ percentByte (128 + n mod 64).

Fixpoint formEncode (s : string) : string :=
  match s with
  | EmptyString => EmptyString
  | String c s' => formEncodeUnit c +:+ formEncode s'
  end.

End JsMore.

(* ===================================================================== *)
(** ** The token pool read from the environment *)
(* ===================================================================== *)

(** The initialiser of [githubTokens]; an unset variable is [None]. *)
Definition readGithubTokens (GITHUB_TOKENS GITHUB_TOKEN : option string)
  : list string :=
  let raw := default "" GITHUB_TOKENS in
  let tokens := Js.filterBoolean (JsMore.trim <$> Js.split "," raw) in
  if 0 <? length tokens then tokens
  else
    let single := JsMore.trim (default "" GITHUB_TOKEN) in
    if negb (String.eqb single "") then [single] else [].

(** A string made of white space only. *)
Definition blank (s : string) : Prop := JsMore.trim s = "".

(** A string that neither starts nor ends with white space. *)
Definition trimmed (s : string) : Prop :=
  (∀ c rest, s = String c rest → JsMore.isWhiteSpace c = false)
  ∧ (∀ front c, s = front +:+ String c "" → JsMore.isWhiteSpace c = false).

(* ===================================================================== *)
(** ** The search tool *)
(* ===================================================================== *)

Definition SKILLS_API_URL : string := "https://skills.sh/api/search".

Definition SKILLS_HEADERS : gmap string string :=
  <["accept" := "*/*"]>
  (<["accept-language" := "en-US,en;q=0.9"]>
  (<["Cookie" := "region=us"]>
  {[ "user-agent" :=
       "Mozilla/5.0 (Linux; Android 6.0; Nexus 5 Build/MRA58N) "
       +:+ "AppleWebKit/537.36 (KHTML, like Gecko) "
       +:+ "Chrome/145.0.0.0 Mobile Safari/537.36" ]})).

(** A field of a search hit: absent, null, or a string. Hits are taken to
    be objects and their fields, when present, strings or null (an integer
    for [installs]); other JSON values are left out of the model. *)
Inductive Field :=
| Absent
| Null
| Text (s : string).

(** A field in a template literal. *)
Definition showField (f : Field) : string :=
  match f with
  | Absent => "undefined"
  | Null => "null"
  | Text s => s
  end.

(** [f ?? fallback] when the result is used as a string. *)
Definition fieldOr (f : Field) (fallback : string) : string :=
  match f with
  | Text s => s
  | _ => fallback
  end.

(** One element of the list the index service answers with. *)
Record Hit := {
  h_source : Field;
  h_skillId : Field;
  h_name : Field;
  h_installs : option Z
}.

(** [{ id, name, source, installs }]. *)
Record Skill := {
  s_id : string;
  s_name : string;
  s_source : string;
  s_installs : Z
}.

(** The callback mapped over the hits. *)
Definition toSkill (s : Hit) : Skill :=
  {| s_id := showField (h_source s) +:+ "/" +:+ showField (h_skillId s);
     s_name := fieldOr (h_name s) (fieldOr (h_skillId s) "");
     s_source := fieldOr (h_source s) "";
     s_installs := default 0%Z (h_installs s) |}.

(** The parsed body of the index service: an array of hits, or an object
    whose [skills] field may hold one. *)
Inductive SearchJson :=
| SArray (hits : list Hit)
| SObject (skills : option (list Hit)).

(** [Array.isArray(data) ? data : (data.skills ?? [])]. *)
Definition skillListOf (data : SearchJson) : list Hit :=
  match data with
  | SArray hits => hits
  | SObject (Some hits) => hits
  | SObject None => []
  end.

Record SearchResponse := {
  sr_status : nat;
  sr_text : Body string;
  sr_json : Body SearchJson
}.

Definition sr_ok (r : SearchResponse) : bool :=
  (200 <=? sr_status r) && (sr_status r <=? 299).

Inductive SearchOutcome :=
| SearchRejected (msg : string)
| SearchResolved (r : SearchResponse).

(** What the search handler hands back: [{ query, total, skills }], or an
    error text. *)
Inductive SearchResult :=
| SearchFound (query : string) (total : nat) (skills : list Skill)
| SearchFailed (message : string).

(** The URL of a search: the serialised [URLSearchParams] after the
    question mark. The limit is an integer here; the schema keeps it
    between 1 and 500. *)
Definition searchUrl (query : string) (effectiveLimit : nat) : string :=
  SKILLS_API_URL +:+ "?" +:+ "q=" +:+ JsMore.formEncode query
  +:+ "&limit=" +:+ JsMore.formEncode (Js.showNat effectiveLimit).

Section Search.
Variable skillsNet : Request → SearchOutcome.

(** [await fetch(url, { headers: SKILLS_HEADERS })]. *)
Definition fetchSkills (u : string) (h : gmap string string)
  : M SearchResponse := λ st,
  let rq := {| url := u; headers := h |} in
  let st' := {| tokenIndex := tokenIndex st; issued := issued st ++ [rq] |} in
  match skillsNet rq with
  | SearchRejected msg => (Throws msg, st')
  | SearchResolved r => (Returns r, st')
  end.

Definition searchText (r : SearchResponse) : M string :=
  match sr_text r with
  | Yields t => ret t
  | Fails msg => throw msg
  end.

Definition searchJson (r : SearchResponse) : M SearchJson :=
  match sr_json r with
  | Yields j => ret j
  | Fails msg => throw msg
  end.

(** The body of both [search-skills] handlers; they differ in the two
    message prefixes. *)
Definition searchSkillsWith (statusPrefix catchPrefix : string)
    (query : string) (limit : option nat) : M SearchResult :=
  let effectiveLimit := default 100 limit in
  tryCatch
    (resp <~ fetchSkills (searchUrl query effectiveLimit) SKILLS_HEADERS ;;
     if negb (sr_ok resp) then
       body <~ searchText resp ;;
       ret (SearchFailed
              (statusPrefix +:+ "skills.sh API returned "
               +:+ Js.showNat (sr_status resp) +:+ ": "
               +:+ Js.take 500 body))
     else
       data <~ searchJson resp ;;
       let skillList := skillListOf data in
       let skills := toSkill <$> skillList in
       ret (SearchFound query (length skills) skills))
    (λ msg, ret (SearchFailed (catchPrefix +:+ msg))).

End Search.

Module HttpTools.
(** The [search-skills] handler of index.ts. *)
Definition searchSkills (skillsNet : Request → SearchOutcome)
  : string → option nat → M SearchResult :=
  searchSkillsWith skillsNet "" "Failed to search skills: ".
End HttpTools.

Module StdioTools.
(** The [search-skills] handler of stdio.mjs. *)
Definition searchSkills (skillsNet : Request → SearchOutcome)
  : string → option nat → M SearchResult :=
  searchSkillsWith skillsNet "Error: " "Error: ".
End StdioTools.

(* ===================================================================== *)
(** ** More trees, listings and networks for the examples *)
(* ===================================================================== *)

Module MoreFixtures.

(** The repository acme/skills with everything served: the tree, the
    listing of pdf with one file, one directory without a path and one
    sub-directory, the listing of the sub-directory, and the raw files. *)
Definition servedListing : list Item :=
  [ {| it_type := "file"; it_path := Some "pdf/SKILL.md";
       it_name := Some "SKILL.md"; it_download_url := Some "raw/pdf/SKILL.md" |};
    {| it_type := "symlink"; it_path := Some "pdf/latest";
       it_name := Some "latest"; it_download_url := Some "raw/pdf/latest" |};
    {| it_type := "dir"; it_path := None;
       it_name := Some "ghost"; it_download_url := None |};
    {| it_type := "dir"; it_path := Some "pdf/references";
       it_name := Some "references"; it_download_url := None |} ].

Definition referencesListing : list Item :=
  [ {| it_type := "file"; it_path := Some "pdf/references/forms.md";
       it_name := Some "forms.md";
       it_download_url := Some "raw/pdf/forms.md" |} ].

Definition servedNet (rq : Request) : FetchOutcome :=
  if String.eqb (url rq) (treesUrl "acme/skills") then
    Fixtures.okJson (JObject None (Some Fixtures.skillsTree))
  else if String.eqb (url rq) (contentsUrl "acme/skills" "pdf") then
    Fixtures.okJson (JArray servedListing)
  else if String.eqb (url rq) (contentsUrl "acme/skills" "pdf/references") then
    Fixtures.okJson (JArray referencesListing)
  else if String.eqb (url rq) "raw/pdf/SKILL.md" then Fixtures.okText "# PDF"
  else if String.eqb (url rq) "raw/pdf/forms.md" then Fixtures.okText "forms"
  else Fixtures.notFound.

(** An index service that is down. *)
Definition downNet (rq : Request) : SearchOutcome :=
  SearchResolved {| sr_status := 503; sr_text := Yields "Service Unavailable";
                    sr_json := Fails "not JSON" |}.



End MoreFixtures.
(* ===================================================================== *)
(** ** String primitives against their specifications *)
(* ===================================================================== *)

Lemma string_app_cons (c : ascii) (a b : string) :
  String c a +:+ b = String c (a +:+ b).
Proof. reflexivity. Qed.

Lemma string_app_nil_l (b : string) : "" +:+ b = b.
Proof. reflexivity. Qed.

Lemma string_app_length (a b : string) :
  String.length (a +:+ b) = String.length a + String.length b.
Proof.
  induction a as [|c a IH]; [done|].
  rewrite string_app_cons. cbn [String.length]. by rewrite IH.
Qed.

Lemma take_drop (n : nat) (s : string) : Js.take n s +:+ Js.drop n s = s.
Proof.
  revert s. induction n as [|n IH]; intros [|c s]; try done.
  cbn [Js.take Js.drop]. rewrite string_app_cons. by rewrite IH.
Qed.

Lemma drop_app_length (p t : string) : Js.drop (String.length p) (p +:+ t) = t.
Proof. induction p as [|c p IH]; [done|]. by rewrite string_app_cons. Qed.

Lemma take_app_length (p t : string) : Js.take (String.length p) (p +:+ t) = p.
Proof.
  induction p as [|c p IH]; [done|].
  rewrite string_app_cons. cbn [String.length Js.take]. by rewrite IH.
Qed.

Lemma endsWith_spec (s suf : string) :
  Js.endsWith s suf = true ↔ ∃ p, s = p +:+ suf.
Proof.
  unfold Js.endsWith. split.
  - destruct (Nat.leb_spec (String.length suf) (String.length s)); [|done].
    intros Heq%String.eqb_eq.
    exists (Js.take (String.length s - String.length suf) s).
    pose proof (take_drop (String.length s - String.length suf) s) as Htd.
    rewrite Heq in Htd. by symmetry.
  - intros [p ->]. rewrite string_app_length.
    rewrite (proj2 (Nat.leb_le _ _)) by lia.
    replace (String.length p + String.length suf - String.length suf)
      with (String.length p) by lia.
    rewrite drop_app_length. apply String.eqb_refl.
Qed.

Lemma startsWith_spec (s p : string) :
  Js.startsWith s p = true ↔ ∃ post, s = p +:+ post.
Proof.
  revert s. induction p as [|a p IH]; intros s.
  - split; [by exists s | by destruct s].
  - destruct s as [|b s]; cbn [Js.startsWith].
    + split; [done | by intros [? ?]].
    + rewrite andb_true_iff, IH, Ascii.eqb_eq. split.
      * intros [-> [post ->]]. by exists post.
      * intros [post H]. rewrite string_app_cons in H.
        injection H as -> ->. split; [done | by exists post].
Qed.

Lemma includes_spec (s sub : string) :
  Js.includes s sub = true ↔ substringOf sub s.
Proof.
  unfold substringOf. induction s as [|c s IH]; cbn [Js.includes].
  - rewrite orb_false_r, startsWith_spec. split.
    + intros [post H]. by exists "", post.
    + intros (pre & post & H). destruct pre; [by exists post|done].
  - rewrite orb_true_iff, startsWith_spec, IH. split.
    + intros [[post H]|(pre & post & H)].
      * by exists "", post.
      * exists (String c pre), post. cbn. by rewrite H.
    + intros (pre & post & H). destruct pre as [|c' pre].
      * left. by exists post.
      * right. injection H as _ H. by exists pre, post.
Qed.

(** Every code unit of the 8-bit range. *)
Lemma all_ascii_covers (a : ascii) :
  a ∈ (ascii_of_nat <$> seq 0 256).
Proof.
  rewrite <- (ascii_nat_embedding a). apply list_elem_of_fmap_2.
  apply list_elem_of_In, in_seq. pose proof (nat_ascii_bounded a). lia.
Qed.

Lemma canonicalize_lowerAscii (a b : ascii) :
  Ascii.eqb (Js.canonicalize a) (Js.canonicalize b)
  = Ascii.eqb (lowerAscii a) (lowerAscii b).
Proof.
  assert (H : forallb (λ x, forallb (λ y,
                 Bool.eqb (Ascii.eqb (Js.canonicalize x) (Js.canonicalize y))
                          (Ascii.eqb (lowerAscii x) (lowerAscii y)))
                 (ascii_of_nat <$> seq 0 256)) (ascii_of_nat <$> seq 0 256)
              = true) by (vm_compute; reflexivity).
  rewrite forallb_forall in H.
  specialize (H a (proj1 (list_elem_of_In _ _) (all_ascii_covers a))).
  rewrite forallb_forall in H.
  specialize (H b (proj1 (list_elem_of_In _ _) (all_ascii_covers b))).
  by apply Bool.eqb_prop in H.
Qed.

Lemma matchLiteralCI_spec (lit t : string) :
  Js.matchLiteralCI lit t = Some "" ↔ lowerCase t = lowerCase lit.
Proof.
  revert t. induction lit as [|a lit IH]; intros [|b t];
    cbn [Js.matchLiteralCI lowerCase].
  - done.
  - split; intros [=].
  - split; intros [=].
  - rewrite canonicalize_lowerAscii.
    destruct (Ascii.eqb_spec (lowerAscii a) (lowerAscii b)) as [->|Hne].
    + rewrite IH. split; [by intros -> | by intros [= ->]].
    + split; [done | intros [= H1 _]; by rewrite H1 in Hne].
Qed.

Lemma testLiteralAtEndCI_spec (lit s : string) :
  Js.testLiteralAtEndCI lit s = true
  ↔ ∃ p t, s = p +:+ t ∧ lowerCase t = lowerCase lit.
Proof.
  induction s as [|c s IH]; cbn [Js.testLiteralAtEndCI].
  - split.
    + intros H. exists "", "". split; [done|]. apply matchLiteralCI_spec.
      destruct (Js.matchLiteralCI lit "") as [[|]|]; done.
    + intros (p & t & H & Ht). apply matchLiteralCI_spec in Ht.
      destruct p; [|done]. rewrite string_app_nil_l in H. subst t.
      by rewrite Ht.
  - split.
    + intros H.
      destruct (Js.matchLiteralCI lit (String c s)) as [[|x r]|] eqn:Hm.
      * exists "", (String c s). split; [done|]. by apply matchLiteralCI_spec.
      * apply IH in H as (p & t & -> & Ht). by exists (String c p), t.
      * apply IH in H as (p & t & -> & Ht). by exists (String c p), t.
    + intros (p & t & H & Ht). apply matchLiteralCI_spec in Ht.
      destruct p as [|c' p].
      * rewrite string_app_nil_l in H. subst t. by rewrite Ht.
      * rewrite string_app_cons in H. injection H as _ H.
        assert (Hrec : Js.testLiteralAtEndCI lit s = true).
        { apply IH. exists p, t. split; [done|]. by apply matchLiteralCI_spec. }
        by destruct (Js.matchLiteralCI lit (String c s)) as [[|x r]|].
Qed.

(* ===================================================================== *)
(** ** The token rotator *)
(* ===================================================================== *)

Lemma getGitHubHeaders_empty (st : State) :
  getGitHubHeaders [] st
  = (Returns {[ "Accept" := "application/vnd.github.v3+json" ]}, st).
Proof. reflexivity. Qed.

Lemma getGitHubHeaders_cons (t : string) (ts : list string) (st : State) :
  getGitHubHeaders (t :: ts) st
  = (Returns (<["Authorization" :=
                "Bearer " +:+ default "undefined"
                  ((t :: ts) !! (tokenIndex st mod length (t :: ts)))]>
              {[ "Accept" := "application/vnd.github.v3+json" ]}),
     {| tokenIndex := S (tokenIndex st); issued := issued st |}).
Proof. reflexivity. Qed.

Lemma afterCalls_cursor (t : string) (ts : list string) (n : nat) (st : State) :
  tokenIndex (afterCalls (t :: ts) n st) = tokenIndex st + n
  ∧ issued (afterCalls (t :: ts) n st) = issued st.
Proof.
  induction n as [|n [IHc IHi]]; cbn [afterCalls].
  - split; [lia | done].
  - rewrite getGitHubHeaders_cons. cbn [snd tokenIndex issued].
    split; [lia | done].
Qed.

Lemma afterCalls_empty (n : nat) (st : State) : afterCalls [] n st = st.
Proof. induction n as [|n IH]; cbn [afterCalls]; [done | by rewrite IH]. Qed.

(** C9. [getGitHubHeaders] returns from every state and leaves the list of
    requests alone. With an empty pool the headers carry no Authorization
    and the state is unchanged. With a non-empty pool the headers carry the
    token at index cursor mod pool size and the cursor moves forward by
    exactly one; the cursor of a fresh process is 0, so it is [n] at the
    call that follows [n] earlier calls, which therefore carries the token
    at index n mod pool size. *)
Theorem getGitHubHeaders_round_robin :
  ∀ (githubTokens : list string) (n : nat) (st : State),
    (∃ h st',
        getGitHubHeaders githubTokens st = (Returns h, st')
        ∧ issued st' = issued st
        ∧ h !! "Accept" = Some "application/vnd.github.v3+json"
        ∧ match githubTokens with
          | [] => st' = st ∧ h !! "Authorization" = None
          | _ :: _ =>
              tokenIndex st' = S (tokenIndex st)
              ∧ ∃ tok,
                  githubTokens !! (tokenIndex st mod length githubTokens)
                    = Some tok
                  ∧ h !! "Authorization" = Some ("Bearer " +:+ tok)
          end)
    ∧ match githubTokens with
      | [] => afterCalls githubTokens n initialState = initialState
      | _ :: _ =>
          tokenIndex (afterCalls githubTokens n initialState) = n
          ∧ ∃ h tok,
              fst (getGitHubHeaders githubTokens
                     (afterCalls githubTokens n initialState)) = Returns h
              ∧ githubTokens !! (n mod length githubTokens) = Some tok
              ∧ h !! "Authorization" = Some ("Bearer " +:+ tok)
      end.
Proof.
  intros tokens n st. destruct tokens as [|t ts].
  - split; [|apply afterCalls_empty].
    eexists _, _. split; [apply getGitHubHeaders_empty|]. done.
  - assert (Hpick : ∀ k, ∃ tok, (t :: ts) !! (k mod length (t :: ts)) = Some tok).
    { intros k. apply lookup_lt_is_Some_2, Nat.mod_upper_bound. cbn. lia. }
    split.
    + eexists _, _. split; [apply getGitHubHeaders_cons|].
      split; [done|]. split; [done|]. split; [done|].
      destruct (Hpick (tokenIndex st)) as [tok Htok]. exists tok.
      split; [done|]. rewrite Htok. cbn [from_option]. unfold Datatypes.id.
      by rewrite lookup_insert_eq.
    + destruct (afterCalls_cursor t ts n initialState) as [Hc _].
      cbn [tokenIndex initialState] in Hc. rewrite Nat.add_0_l in Hc.
      split; [done|].
      destruct (Hpick n) as [tok Htok]. eexists _, tok.
      rewrite getGitHubHeaders_cons. cbn [fst]. split; [reflexivity|].
      split; [done|]. rewrite Hc, Htok. cbn [from_option].
      unfold Datatypes.id. by rewrite lookup_insert_eq.
Qed.

(* ===================================================================== *)
(** ** The exact tier *)
(* ===================================================================== *)

Lemma isExactMatch_spec (skillId : string) (e : TreeEntry) :
  isExactMatch skillId e = true ↔ namesFolder skillId e.
Proof.
  unfold isExactMatch, namesFolder.
  by rewrite andb_true_iff, orb_true_iff, !String.eqb_eq, endsWith_spec.
Qed.

Lemma exactCandidates_snoc (tree : list TreeEntry) (x : TreeEntry)
    (skillId : string) :
  exactCandidates (tree ++ [x]) skillId
  = exactCandidates tree skillId
    ++ (if isExactMatch skillId x then [te_path x] else []).
Proof.
  unfold exactCandidates. rewrite filter_app, fmap_app. f_equal.
  rewrite filter_cons, filter_nil.
  destruct (isExactMatch skillId x); [by rewrite decide_True | by rewrite decide_False].
Qed.

Lemma exactCandidates_nil (tree : list TreeEntry) (skillId : string) :
  exactCandidates tree skillId = [] ↔
  ∀ e, e ∈ tree → ¬ namesFolder skillId e.
Proof.
  unfold exactCandidates. induction tree as [|x tree IH].
  - split; [|done]. intros _ e He. by apply not_elem_of_nil in He.
  - rewrite filter_cons. destruct (isExactMatch skillId x) eqn:Hx.
    + rewrite decide_True by done. split; [done|].
      intros Hnone. exfalso. apply (Hnone x); [left|].
      by apply isExactMatch_spec.
    + rewrite decide_False by done. rewrite IH. split.
      * intros Hnone e He Hn. apply elem_of_cons in He as [->|He].
        -- apply isExactMatch_spec in Hn. by rewrite Hn in Hx.
        -- by apply (Hnone e).
      * intros Hnone e He. apply Hnone. by right.
Qed.

Lemma lookup_snoc_inv {A} (l : list A) (x y : A) (j : nat) :
  (l ++ [x]) !! j = Some y →
  (j < length l ∧ l !! j = Some y) ∨ (j = length l ∧ y = x).
Proof.
  intros Hj. destruct (decide (j < length l)) as [Hlt|Hge].
  - left. by rewrite lookup_app_l in Hj.
  - right. rewrite lookup_app_r in Hj by lia.
    destruct (j - length l) as [|k] eqn:Hk; [|done].
    injection Hj as <-. split; [lia | done].
Qed.

Lemma reduce_shorter_pick (skillId : string) (tree : list TreeEntry) :
  ∀ first rest,
    exactCandidates tree skillId = first :: rest →
    ∃ i e, firstShortest skillId tree i e
           ∧ te_path e = reduce shorter first rest.
Proof.
  induction tree as [|x tree IH] using rev_ind; intros first rest Hc; [done|].
  rewrite exactCandidates_snoc in Hc.
  destruct (isExactMatch skillId x) eqn:Hx.
  - destruct (exactCandidates tree skillId) as [|f r] eqn:Hprev.
    + (* [x] is the only candidate *)
      injection Hc as <- <-. exists (length tree), x.
      split; [|done]. split; [by apply list_lookup_middle|].
      split; [by apply isExactMatch_spec|].
      intros j e' Hj Hn.
      apply lookup_snoc_inv in Hj as [[Hlt Hj]|[-> ->]]; [|split; [done | lia]].
      apply list_elem_of_lookup_2 in Hj.
      by destruct (proj1 (exactCandidates_nil tree skillId) Hprev e' Hj).
    + (* [x] competes with the pick among the earlier entries *)
      injection Hc as <- <-.
      destruct (IH f r eq_refl) as (i & e & (Hi & Hne & Hmin) & Hpick).
      pose proof (lookup_lt_Some _ _ _ Hi) as Hbound.
      unfold reduce in *. rewrite foldl_app. cbn [foldl].
      rewrite <- Hpick. unfold shorter.
      destruct (Nat.leb_spec (String.length (te_path e))
                             (String.length (te_path x))) as [Hle|Hgt].
      * exists i, e. split; [|done].
        split; [by rewrite lookup_app_l|]. split; [done|].
        intros j e' Hj Hn.
        apply lookup_snoc_inv in Hj as [[Hlt Hj]|[-> ->]];
          [by apply Hmin | split; [done | lia]].
      * exists (length tree), x. split; [|done].
        split; [by apply list_lookup_middle|].
        split; [by apply isExactMatch_spec|].
        intros j e' Hj Hn.
        apply lookup_snoc_inv in Hj as [[Hlt Hj]|[-> ->]];
          [|split; [done | lia]].
        destruct (Hmin j e' Hj Hn) as [Hle' _]. lia.
  - rewrite app_nil_r in Hc.
    destruct (IH first rest Hc) as (i & e & (Hi & Hne & Hmin) & Hpick).
    pose proof (lookup_lt_Some _ _ _ Hi) as Hbound.
    exists i, e. split; [|done].
    split; [by rewrite lookup_app_l|]. split; [done|].
    intros j e' Hj Hn.
    apply lookup_snoc_inv in Hj as [[Hlt Hj]|[-> ->]]; [by apply Hmin|].
    apply isExactMatch_spec in Hn. by rewrite Hn in Hx.
Qed.

Lemma exactCandidates_only_trees (tree : list TreeEntry) (skillId : string) :
  exactCandidates (filter (λ e, te_type e = "tree") tree) skillId
  = exactCandidates tree skillId.
Proof.
  unfold exactCandidates. f_equal.
  induction tree as [|x tree IH]; [done|].
  rewrite !filter_cons. destruct (decide (te_type x = "tree")) as [Hx|Hx].
  - rewrite filter_cons. by rewrite IH.
  - rewrite IH. rewrite decide_False; [done|].
    unfold isExactMatch. apply String.eqb_neq in Hx. by rewrite Hx.
Qed.

Section Resolver.
Variable githubTokens : list string.
Variable net : Request → FetchOutcome.

Lemma ok_not_403 (resp : Response) : ok resp = true → (status resp =? 403) = false.
Proof.
  unfold ok. rewrite andb_true_iff, !Nat.leb_le. intros [? ?].
  apply Nat.eqb_neq. lia.
Qed.

Lemma getGitHubHeaders_returns (st : State) :
  ∃ h st', getGitHubHeaders githubTokens st = (Returns h, st').
Proof.
  unfold getGitHubHeaders. destruct (0 <? length githubTokens); by eauto.
Qed.

Lemma stdio_findSkillFolder_served (source skillId : string) (data : Json)
    (st : State) :
  servesTree net source data →
  fst (Stdio.findSkillFolder githubTokens net source skillId st)
  = Returns (Stdio.resolveInTree (treeOf data) skillId).
Proof.
  intros (resp & Hnet & Hok & Hjson).
  unfold Stdio.findSkillFolder, bind at 1.
  destruct (getGitHubHeaders_returns st) as (h & st1 & ->).
  unfold bind at 1, fetch. rewrite Hnet.
  rewrite (ok_not_403 _ Hok), Hok. cbn [negb].
  unfold bind, respJson. by rewrite Hjson.
Qed.

Lemma http_findSkillFolder_served (source skillId : string) (data : Json)
    (st : State) :
  servesTree net source data →
  fst (Http.findSkillFolder githubTokens net source skillId st)
  = Returns
      match exactCandidates (treeOf data) skillId with
      | [] => {| folderPath := None;
                 findError := Some "Skill folder not found in repository" |}
      | first :: rest =>
          {| folderPath := Some (reduce shorter first rest);
             findError := None |}
      end.
Proof.
  intros (resp & Hnet & Hok & Hjson).
  unfold Http.findSkillFolder, bind at 1.
  destruct (getGitHubHeaders_returns st) as (h & st1 & ->).
  unfold bind at 1, fetch. rewrite Hnet.
  rewrite (ok_not_403 _ Hok), Hok. cbn [negb].
  unfold bind, respJson. rewrite Hjson. unfold ret. cbv zeta.
  destruct (exactCandidates (treeOf data) skillId); reflexivity.
Qed.

End Resolver.

(** C2. When the served tree has at least one directory whose path is the
    skill identifier or ends with a slash followed by it, both entry points
    return, with a null error, the path of the first entry among those of
    least path length. The answer of the stdio resolver is the same on the
    tree stripped of everything that is not a directory: no manifest takes
    part in it. *)
Theorem exact_match_first_shortest :
  ∀ (githubTokens : list string) (net : Request → FetchOutcome)
    (source skillId : string) (data : Json) (st : State),
    servesTree net source data →
    (∃ e, e ∈ treeOf data ∧ namesFolder skillId e) →
    ∃ i e,
      firstShortest skillId (treeOf data) i e
      ∧ fst (Stdio.findSkillFolder githubTokens net source skillId st)
        = Returns {| folderPath := Some (te_path e); findError := None |}
      ∧ fst (Http.findSkillFolder githubTokens net source skillId st)
        = Returns {| folderPath := Some (te_path e); findError := None |}
      ∧ Stdio.resolveInTree
          (filter (λ x, te_type x = "tree") (treeOf data)) skillId
        = {| folderPath := Some (te_path e); findError := None |}.
Proof.
  intros tokens net source skillId data st Hnet (e0 & He0 & Hn0).
  destruct (exactCandidates (treeOf data) skillId) as [|first rest] eqn:Hc.
  { by destruct (proj1 (exactCandidates_nil _ _) Hc e0 He0). }
  destruct (reduce_shorter_pick skillId _ first rest Hc) as (i & e & Hfs & Hp).
  exists i, e. split; [done|].
  rewrite (stdio_findSkillFolder_served tokens net source skillId data st Hnet).
  rewrite (http_findSkillFolder_served tokens net source skillId data st Hnet).
  unfold Stdio.resolveInTree. rewrite exactCandidates_only_trees, Hc, Hp. done.
Qed.

Lemma exact_match_first_shortest_witness :
  servesTree Fixtures.rateLimitedNet "acme/skills"
    (JObject None (Some Fixtures.skillsTree))
  ∧ (∃ e, e ∈ Fixtures.skillsTree ∧ namesFolder "pdf" e)
  ∧ ∃ i e,
      firstShortest "pdf" Fixtures.skillsTree i e
      ∧ fst (Stdio.findSkillFolder ["t1"] Fixtures.rateLimitedNet
               "acme/skills" "pdf" initialState)
        = Returns {| folderPath := Some (te_path e); findError := None |}
      ∧ fst (Http.findSkillFolder ["t1"] Fixtures.rateLimitedNet
               "acme/skills" "pdf" initialState)
        = Returns {| folderPath := Some (te_path e); findError := None |}
      ∧ Stdio.resolveInTree
          (filter (λ x, te_type x = "tree") Fixtures.skillsTree) "pdf"
        = {| folderPath := Some (te_path e); findError := None |}.
Proof.
  assert (Hs : servesTree Fixtures.rateLimitedNet "acme/skills"
                 (JObject None (Some Fixtures.skillsTree))).
  { eexists. split; [intros h; reflexivity|]. split; reflexivity. }
  assert (He : ∃ e, e ∈ Fixtures.skillsTree ∧ namesFolder "pdf" e).
  { exists (Fixtures.dir "vendor/pdf"). split; [left|].
    split; [reflexivity|]. right. exists "vendor". reflexivity. }
  split; [exact Hs|]. split; [exact He|].
  exact (exact_match_first_shortest ["t1"] Fixtures.rateLimitedNet
           "acme/skills" "pdf" _ initialState Hs He).
Defined.

(* ===================================================================== *)
(** ** The manifest scan and the single-manifest shortcut *)
(* ===================================================================== *)

Lemma isSkillMd_spec (e : TreeEntry) :
  Stdio.isSkillMd e = true ↔ manifestLike e.
Proof.
  unfold Stdio.isSkillMd, manifestLike.
  by rewrite andb_true_iff, String.eqb_eq, testLiteralAtEndCI_spec.
Qed.

Lemma lastIndexOf_absent (c : ascii) (s : string) :
  countChar c s = 0 → Js.lastIndexOf c s = None.
Proof.
  induction s as [|a s IH]; [done|]. cbn [countChar Js.lastIndexOf].
  destruct (Ascii.eqb a c); [done|]. intros H. by rewrite IH.
Qed.

Lemma lastIndexOf_last (c : ascii) (d f : string) :
  countChar c f = 0 →
  Js.lastIndexOf c (d +:+ String c f) = Some (String.length d).
Proof.
  intros Hf. induction d as [|a d IH].
  - rewrite string_app_nil_l. cbn [Js.lastIndexOf].
    rewrite (lastIndexOf_absent c f Hf). by rewrite Ascii.eqb_refl.
  - rewrite string_app_cons. cbn [Js.lastIndexOf]. by rewrite IH.
Qed.

Lemma parentFolder_root (f : string) :
  countChar "/" f = 0 → Stdio.parentFolder f = "".
Proof.
  intros Hf. unfold Stdio.parentFolder. by rewrite lastIndexOf_absent.
Qed.

Lemma parentFolder_nested (d f : string) :
  countChar "/" f = 0 → Stdio.parentFolder (d +:+ "/" +:+ f) = d.
Proof.
  intros Hf. unfold Stdio.parentFolder.
  change (d +:+ "/" +:+ f) with (d +:+ String "/" f).
  rewrite lastIndexOf_last by done. apply take_app_length.
Qed.

(** C10. A blob is taken for a skill manifest exactly when its path ends
    with skill.md, letter case aside. A file such as docs/my-skill.md is
    therefore a manifest, and in a tree without any SKILL.md its folder is
    what resolution returns. *)
Theorem manifest_is_case_blind_suffix :
  (∀ e, Stdio.isSkillMd e = true ↔ manifestLike e)
  ∧ Stdio.isSkillMd (Fixtures.blob "docs/my-skill.md") = true
  ∧ filter (λ e, Stdio.isSkillMd e = true) Fixtures.onlyMySkill
    = [Fixtures.blob "docs/my-skill.md"]
  ∧ Stdio.resolveInTree Fixtures.onlyMySkill "pdf"
    = {| folderPath := Some "docs"; findError := None |}.
Proof.
  split; [apply isSkillMd_spec|].
  repeat split; vm_compute; reflexivity.
Qed.

(** C4 as the code has it. Without an exact directory match, a tree with
    exactly one manifest blob resolves to the parent folder of that blob,
    the empty string for a manifest at the root, whatever the skill
    identifier; with two or more manifest blobs, in one folder or in
    several, the fuzzy tier decides. *)
Theorem single_manifest_shortcut :
  ∀ (tree : list TreeEntry) (skillId : string),
    (∀ x, x ∈ tree → ¬ namesFolder skillId x) →
    (∀ e, filter (λ x, Stdio.isSkillMd x = true) tree = [e] →
       manifestLike e
       ∧ Stdio.resolveInTree tree skillId
         = {| folderPath := Some (Stdio.parentFolder (te_path e));
              findError := None |}
       ∧ (countChar "/" (te_path e) = 0 →
          Stdio.parentFolder (te_path e) = "")
       ∧ (∀ d f, countChar "/" f = 0 → te_path e = d +:+ "/" +:+ f →
          Stdio.parentFolder (te_path e) = d))
    ∧ (∀ e1 e2 more,
         filter (λ x, Stdio.isSkillMd x = true) tree = e1 :: e2 :: more →
         Stdio.resolveInTree tree skillId
         = Stdio.fuzzyMatch skillId
             ((λ e, Stdio.parentFolder (te_path e)) <$> e1 :: e2 :: more)).
Proof.
  intros tree skillId Hnone.
  apply exactCandidates_nil in Hnone.
  split.
  - intros e Hone. split.
    { apply isSkillMd_spec.
      assert (He : e ∈ filter (λ x, Stdio.isSkillMd x = true) tree)
        by (rewrite Hone; left).
      by apply list_elem_of_filter in He as [? _]. }
    split.
    { unfold Stdio.resolveInTree. by rewrite Hnone, Hone. }
    split.
    + apply parentFolder_root.
    + intros d f Hf ->. by apply parentFolder_nested.
  - intros e1 e2 more Hmany.
    unfold Stdio.resolveInTree. by rewrite Hnone, Hmany.
Qed.

Lemma single_manifest_shortcut_witness :
  (∀ x, x ∈ Fixtures.onlyMySkill → ¬ namesFolder "pdf" x)
  ∧ Stdio.resolveInTree Fixtures.onlyMySkill "pdf"
    = {| folderPath :=
           Some (Stdio.parentFolder (te_path (Fixtures.blob "docs/my-skill.md")));
         findError := None |}.
Proof.
  assert (Hnone : ∀ x, x ∈ Fixtures.onlyMySkill → ¬ namesFolder "pdf" x).
  { apply exactCandidates_nil. vm_compute. reflexivity. }
  split; [exact Hnone|].
  apply (single_manifest_shortcut Fixtures.onlyMySkill "pdf" Hnone).
  vm_compute. reflexivity.
Defined.

(** C4, the claim refuted: two manifest blobs in the one folder tools, no
    directory named after the skill; the shortcut is not taken and the
    fuzzy tier rejects the folder. *)
Lemma same_folder_manifests_reach_fuzzy_tier :
  exactCandidates Fixtures.twoManifestsOneFolder "pdf" = []
  ∧ (λ e, Stdio.parentFolder (te_path e))
      <$> filter (λ e, Stdio.isSkillMd e = true) Fixtures.twoManifestsOneFolder
    = ["tools"; "tools"]
  ∧ Stdio.resolveInTree Fixtures.twoManifestsOneFolder "pdf"
    = {| folderPath := None;
         findError :=
           Some "No matching skill folder found (best match: tools at 0%)" |}.
Proof. repeat split; vm_compute; reflexivity. Qed.

(* ===================================================================== *)
(** ** The fuzzy tier *)
(* ===================================================================== *)

Lemma split_nonempty (c : ascii) (s : string) : Js.split c s ≠ [].
Proof.
  destruct s as [|a s]; [done|]. cbn [Js.split].
  destruct (Ascii.eqb a c); [done|]. by destruct (Js.split c s).
Qed.

Lemma split_no_separator (c : ascii) (n : string) :
  countChar c n = 0 → Js.split c n = [n].
Proof.
  induction n as [|a n IH]; [done|]. cbn [countChar Js.split].
  destruct (Ascii.eqb a c); [done|]. intros H. by rewrite IH.
Qed.

Lemma split_app_separator (c : ascii) (p q : string) :
  Js.split c (p +:+ String c q) = Js.split c p ++ Js.split c q.
Proof.
  induction p as [|a p IH].
  - rewrite string_app_nil_l. cbn [Js.split]. by rewrite Ascii.eqb_refl.
  - rewrite string_app_cons. cbn [Js.split]. rewrite IH.
    destruct (Ascii.eqb a c); [done|].
    pose proof (split_nonempty c p). by destruct (Js.split c p).
Qed.

Lemma finalSegment_pop (d n : string) :
  finalSegment d n → Js.pop (Js.split "/" d) = Some n.
Proof.
  intros [Hn [->|[p ->]]]; unfold Js.pop.
  - by rewrite split_no_separator.
  - change (p +:+ "/" +:+ n) with (p +:+ String "/" n).
    rewrite split_app_separator, (split_no_separator _ n Hn).
    apply last_snoc.
Qed.

(** The score of a folder depends on its final segment alone. *)
Lemma scoreCandidate_finalSegment (skillId d n : string) :
  finalSegment d n →
  Stdio.scoreCandidate skillId d
  = {| Stdio.c_folderPath := d; Stdio.c_folderName := n;
       Stdio.c_score := Stdio.c_score (Stdio.scoreCandidate skillId n) |}.
Proof.
  intros Hd.
  assert (Hn : finalSegment n n) by (destruct Hd; split; auto).
  unfold Stdio.scoreCandidate.
  by rewrite (finalSegment_pop d n Hd), (finalSegment_pop n n Hn).
Qed.

(** C5 as the code has it. Against the skill identifier weather, a folder
    whose final segment is weather-widgets and one whose final segment is
    weather both reach the cap 1: the first has base score 1/2 and the
    second base score 1, and both get the substring bonus. The sort leaves
    equal scores in their order, so resolution returns whichever of the two
    comes first. *)
Theorem weather_candidates_tie_at_cap :
  ∀ (d1 d2 : string),
    finalSegment d1 "weather-widgets" →
    finalSegment d2 "weather" →
    (∃ q1 q2,
        Stdio.c_score (Stdio.scoreCandidate "weather" d1) = Num q1
        ∧ Stdio.c_score (Stdio.scoreCandidate "weather" d2) = Num q2
        ∧ (q1 == 1)%Q ∧ (q2 == 1)%Q)
    ∧ Stdio.fuzzyMatch "weather" [d1; d2]
      = {| folderPath := Some d1; findError := None |}
    ∧ Stdio.fuzzyMatch "weather" [d2; d1]
      = {| folderPath := Some d2; findError := None |}.
Proof.
  intros d1 d2 H1 H2.
  pose proof (scoreCandidate_finalSegment "weather" d1 _ H1) as E1.
  pose proof (scoreCandidate_finalSegment "weather" d2 _ H2) as E2.
  split.
  - rewrite E1, E2. cbn [Stdio.c_score].
    exists (4 # 4)%Q, 1%Q. repeat split; vm_compute; reflexivity.
  - unfold Stdio.fuzzyMatch. rewrite !fmap_cons, fmap_nil, E1, E2.
    split; vm_compute; reflexivity.
Qed.

Lemma weather_candidates_tie_at_cap_witness :
  finalSegment "skills/weather-widgets" "weather-widgets"
  ∧ finalSegment "weather" "weather"
  ∧ Stdio.fuzzyMatch "weather" ["skills/weather-widgets"; "weather"]
    = {| folderPath := Some "skills/weather-widgets"; findError := None |}.
Proof.
  assert (H1 : finalSegment "skills/weather-widgets" "weather-widgets").
  { split; [reflexivity|]. right. exists "skills". reflexivity. }
  assert (H2 : finalSegment "weather" "weather").
  { split; [reflexivity|]. left. reflexivity. }
  split; [exact H1|]. split; [exact H2|].
  apply (weather_candidates_tie_at_cap _ _ H1 H2).
Defined.

(** C5, the claim refuted: with weather-widgets listed first, both folders
    score 1 and resolution returns weather-widgets. *)
Lemma weather_widgets_returned_when_first :
  Stdio.c_score (Stdio.scoreCandidate "weather" "weather-widgets") = Num (4 # 4)
  ∧ Stdio.c_score (Stdio.scoreCandidate "weather" "weather") = Num 1
  ∧ Stdio.comesAfter (Stdio.scoreCandidate "weather" "weather-widgets")
      (Stdio.scoreCandidate "weather" "weather") = false
  ∧ Stdio.fuzzyMatch "weather" ["weather-widgets"; "weather"]
    = {| folderPath := Some "weather-widgets"; findError := None |}
  ∧ Stdio.resolveInTree Fixtures.weatherBlobs "weather"
    = {| folderPath := Some "weather-widgets"; findError := None |}.
Proof. repeat split; vm_compute; reflexivity. Qed.

(** C3. With an empty skill identifier (a composite identifier that ends in
    a slash) and a manifest at the repository root, both token sets of the
    root candidate are empty and its score is 0/0: NaN. The comparator then
    orders nothing, the root stays first, the threshold test fails, and the
    folder examples, whose score is 1/2, is not returned. *)
Theorem fuzzy_tier_nan_score :
  Stdio.tokens "" = []
  ∧ Stdio.c_score (Stdio.scoreCandidate "" "") = NaN
  ∧ Stdio.c_score (Stdio.scoreCandidate "" "examples") = Num (1 # 2)
  ∧ Stdio.atLeastThreshold (Num (1 # 2)) = true
  ∧ Stdio.fuzzyMatch "" [""; "examples"]
    = {| folderPath := None;
         findError :=
           Some "No matching skill folder found (best match:  at NaN%)" |}
  ∧ Stdio.resolveInTree Fixtures.rootAndFolder ""
    = {| folderPath := None;
         findError :=
           Some "No matching skill folder found (best match:  at NaN%)" |}
  ∧ fst (Stdio.fetchSkillDetails [] Fixtures.monoNet 8 "acme/mono/"
           initialState)
    = Returns {| id := "acme/mono/"; files := [];
                 error :=
                   Some "No matching skill folder found (best match:  at NaN%)" |}.
Proof. repeat split; vm_compute; reflexivity. Qed.

(* ===================================================================== *)
(** ** The fuzzy tier when every score is a number *)
(* ===================================================================== *)

Lemma finalSegment_total (d : string) : ∃ n, finalSegment d n.
Proof.
  induction d as [|a d [n [Hn Hd]]].
  - exists "". split; [done | by left].
  - destruct (Ascii.eqb_spec a "/") as [->|Hne].
    + exists n. split; [done|]. right. destruct Hd as [->|[p ->]].
      * by exists "".
      * exists (String "/" p). by rewrite string_app_cons.
    + destruct Hd as [->|[p ->]].
      * exists (String a n). split; [|by left].
        cbn [countChar]. apply Ascii.eqb_neq in Hne. by rewrite Hne.
      * exists n. split; [done|]. right. exists (String a p).
        by rewrite string_app_cons.
Qed.

Lemma newSet_elem_of (l : list string) (x : string) :
  x ∈ Js.newSet l ↔ x ∈ l.
Proof.
  induction l as [|y l IH]; [done|]. cbn [Js.newSet].
  rewrite !elem_of_cons, list_elem_of_filter, IH.
  destruct (decide (x = y)); tauto.
Qed.

Lemma newSet_NoDup (l : list string) : NoDup (Js.newSet l).
Proof.
  induction l as [|y l IH]; [constructor|]. cbn [Js.newSet].
  apply NoDup_cons. split; [|by apply NoDup_filter].
  rewrite list_elem_of_filter. by intros [Hne _].
Qed.

Lemma newSet_length (l : list string) :
  length (Js.newSet l) = size (list_to_set (C:=gset string) l).
Proof.
  rewrite <- (size_list_to_set (C:=gset string) (Js.newSet l))
    by apply newSet_NoDup.
  f_equal. apply set_eq. intros x.
  by rewrite !elem_of_list_to_set, newSet_elem_of.
Qed.

Lemma tokens_length (s : string) :
  length (Stdio.tokens s) = size (tokenSet s).
Proof. unfold Stdio.tokens, tokenSet. apply newSet_length. Qed.

Lemma tokens_elem_of (s x : string) : x ∈ Stdio.tokens s ↔ x ∈ tokenSet s.
Proof.
  unfold Stdio.tokens, tokenSet.
  by rewrite newSet_elem_of, elem_of_list_to_set.
Qed.

Lemma commonTokens_length (name skillId : string) :
  length
    (Js.newSet
       (filter (λ t, Js.has (Stdio.tokens skillId) t = true)
          (Stdio.tokens name)))
  = size (tokenSet name ∩ tokenSet skillId).
Proof.
  rewrite newSet_length. f_equal. apply set_eq. intros x.
  rewrite elem_of_list_to_set, list_elem_of_filter, elem_of_intersection.
  unfold Js.has. rewrite bool_decide_eq_true, !tokens_elem_of. tauto.
Qed.

(** The division of the scorer never has a positive numerator over zero:
    the common tokens are among the folder tokens. *)
Lemma commonTokens_bounded (name skillId : string) :
  length
    (Js.newSet
       (filter (λ t, Js.has (Stdio.tokens skillId) t = true)
          (Stdio.tokens name)))
  ≤ Nat.max (length (Stdio.tokens name)) (length (Stdio.tokens skillId)).
Proof.
  rewrite commonTokens_length, !tokens_length.
  assert (size (tokenSet name ∩ tokenSet skillId) ≤ size (tokenSet name));
    [|lia].
  apply subseteq_size, intersection_subseteq_l.
Qed.



Lemma comesAfter_Num (a b : Stdio.Candidate) (qa qb : Q) :
  Stdio.c_score a = Num qa → Stdio.c_score b = Num qb →
  (Stdio.comesAfter a b = true ↔ (qa < qb)%Q).
Proof.
  intros Ha Hb. unfold Stdio.comesAfter. rewrite Ha, Hb.
  rewrite negb_true_iff, <- not_true_iff_false, Qle_bool_iff. lra.
Qed.

(** The head of the sorted array: the first candidate of greatest score. *)
Lemma sortCandidates_head (cs : list Stdio.Candidate) :
  Forall (λ c, ∃ q, Stdio.c_score c = Num q) cs → cs ≠ [] →
  ∃ i best rest qb,
    Stdio.sortCandidates cs = best :: rest
    ∧ cs !! i = Some best ∧ Stdio.c_score best = Num qb
    ∧ ∀ j c qc, cs !! j = Some c → Stdio.c_score c = Num qc →
        (qc <= qb)%Q ∧ (j < i → (qc < qb)%Q).
Proof.
  induction cs as [|x cs IH] using rev_ind; [done|].
  intros Hall _. apply Forall_app in Hall as [Hcs Hx].
  apply Forall_singleton in Hx as [qx Hqx].
  unfold Stdio.sortCandidates in *. rewrite foldl_app. cbn [foldl].
  destruct cs as [|c0 cs0].
  - exists 0, x, [], qx. split; [done|]. split; [done|]. split; [done|].
    intros [|j] c qc Hj Hc; [|done]. injection Hj as <-.
    rewrite Hqx in Hc. injection Hc as <-. split; [lra | lia].
  - destruct (IH Hcs ltac:(done)) as (i & best & rest & qb & Hs & Hi & Hqb & Hmax).
    rewrite Hs. cbn [Stdio.insertSorted].
    pose proof (comesAfter_Num best x qb qx Hqb Hqx) as Hcmp.
    pose proof (lookup_lt_Some _ _ _ Hi) as Hlt.
    destruct (Stdio.comesAfter best x).
    + exists (length (c0 :: cs0)), x, (best :: rest), qx.
      split; [done|]. split; [by apply list_lookup_middle|]. split; [done|].
      assert (qb < qx)%Q by (by apply (proj1 Hcmp)).
      intros j c qc Hj Hc.
      apply lookup_snoc_inv in Hj as [[Hj' Hj]|[-> ->]].
      * destruct (Hmax j c qc Hj Hc) as [? _]. split; [lra | intros _; lra].
      * rewrite Hqx in Hc. injection Hc as <-. split; [lra | lia].
    + exists i, best, (Stdio.insertSorted x rest), qb.
      split; [done|]. split; [by rewrite lookup_app_l|]. split; [done|].
      assert (¬ (qb < qx)%Q) by (intros Hlt'; by apply Hcmp in Hlt').
      intros j c qc Hj Hc.
      apply lookup_snoc_inv in Hj as [[Hj' Hj]|[-> ->]].
      * by apply (Hmax j c qc).
      * rewrite Hqx in Hc. injection Hc as <-. split; [lra | lia].
Qed.

Lemma showPercent_spec (q : Q) :
  ∃ z, isPercent q z ∧ Stdio.showPercent (Num q) = pretty z.
Proof.
  exists (Qfloor (q * 100 + (1 # 2))). split; [|done].
  pose proof (Qfloor_le (q * 100 + (1 # 2))) as Hlo.
  pose proof (Qlt_floor (q * 100 + (1 # 2))) as Hhi.
  rewrite inject_Z_plus in Hhi. unfold isPercent.
  change (inject_Z 1) with 1%Q in Hhi. split; lra.
Qed.



(* ===================================================================== *)
(** ** The downloader and the collector *)
(* ===================================================================== *)

Section Collector.
Variable githubTokens : list string.
Variable net : Request → FetchOutcome.

Lemma fetchFileContent_returns (u : string) (st : State) :
  fetchFileContent net u st
  = (Returns (downloadResult net u),
     withRequests st [{| url := u; headers := ∅ |}]).
Proof.
  unfold fetchFileContent, tryCatch, bind, fetch, downloadResult, withRequests.
  destruct (net _) as [msg|r]; [done|].
  destruct (ok r); [|done].
  unfold respText. by destruct (text r).
Qed.

Lemma truthy_Some (o : option string) :
  truthy o = true ↔ ∃ u, o = Some u ∧ u ≠ "".
Proof.
  destruct o as [u|]; cbn [truthy].
  - rewrite negb_true_iff. split.
    + intros H. exists u. split; [done|]. intros ->. done.
    + intros (u' & [= <-] & Hne). by apply String.eqb_neq.
  - split; [done | by intros (? & ? & ?)].
Qed.

Lemma downloadEntry_file (e : Item) (st : State) :
  it_type e = "file" →
  ∃ rqs, downloadEntry net e st = (Returns (recordOf net e), withRequests st rqs).
Proof.
  intros Hty. unfold downloadEntry, recordOf.
  rewrite decide_True by done.
  destruct (it_download_url e) as [u|] eqn:Hu;
    cbn [truthy negb from_option]; unfold Datatypes.id.
  - destruct (decide (u = "")) as [->|Hne].
    + exists []. unfold ret, withRequests. rewrite app_nil_r. by destruct st.
    + apply String.eqb_neq in Hne. rewrite Hne. cbn [negb].
      exists [{| url := u; headers := ∅ |}].
      unfold bind. rewrite fetchFileContent_returns.
      destruct (downloadResult net u); reflexivity.
  - exists []. unfold ret, withRequests. rewrite app_nil_r. by destruct st.
Qed.

Lemma withRequests_app (st : State) (a b : list Request) :
  withRequests (withRequests st a) b = withRequests st (a ++ b).
Proof. unfold withRequests. cbn. by rewrite app_assoc. Qed.

Lemma mapM_downloadEntry (es : list Item) (st : State) :
  Forall (λ e, it_type e = "file") es →
  ∃ rqs, mapM (downloadEntry net) es st
         = (Returns (recordOf net <$> es), withRequests st rqs).
Proof.
  intros Hall. revert st. induction Hall as [|e es He _ IH]; intros st.
  - exists []. unfold withRequests. cbn. rewrite app_nil_r. by destruct st.
  - destruct (downloadEntry_file e st He) as [r1 H1].
    destruct (IH (withRequests st r1)) as [r2 H2].
    exists (r1 ++ r2). cbn [mapM]. unfold bind at 1. rewrite H1.
    unfold bind at 1. rewrite H2. by rewrite withRequests_app.
Qed.

Lemma omap_recordOf_fileEntries (items : list Item) :
  omap (λ f, f) (recordOf net <$> fileEntries items) = directFiles net items.
Proof.
  unfold directFiles, fileEntries.
  induction items as [|e items IH]; [done|].
  rewrite filter_cons.
  change (omap (recordOf net) (e :: items))
    with (match recordOf net e with
          | Some r => r :: omap (recordOf net) items
          | None => omap (recordOf net) items
          end).
  rewrite <- IH.
  destruct (decide (it_type e = "file")) as [He|He].
  - rewrite fmap_cons. reflexivity.
  - unfold recordOf at 2. by rewrite decide_False.
Qed.

Lemma forEachDir_extends (recur : list Item → M (list FileRecord))
    (source : string) (dirs : list Item) :
  ∀ (acc out : list FileRecord) (st st' : State),
    forEachDir githubTokens net recur source dirs acc st = (Returns out, st') →
    ∃ nested, out = acc ++ nested.
Proof.
  induction dirs as [|d dirs IH]; intros acc out st st' Hrun.
  - injection Hrun as <- _. exists []. by rewrite app_nil_r.
  - cbn [forEachDir] in Hrun.
    destruct (negb (truthy (it_path d))); [by eapply IH|].
    unfold bind at 1 in Hrun.
    destruct (fetchFolderContents _ _ _ _ _) as [[[sub|]|msg|] st1];
      try discriminate; [|by eapply IH].
    unfold bind at 1 in Hrun.
    destruct (recur sub st1) as [[subFiles|msg|] st2]; try discriminate.
    destruct (IH _ _ _ _ Hrun) as [nested ->].
    exists (subFiles ++ nested). by rewrite app_assoc.
Qed.

Lemma recordOf_downloadable (e : Item) :
  is_Some (recordOf net e) ↔ downloadable net e.
Proof.
  unfold recordOf, downloadable. split.
  - intros [r Hr]. destruct (decide (it_type e = "file")) as [Hty|]; [|done].
    split; [done|]. destruct (it_download_url e) as [u|]; [|done].
    exists u. destruct (decide (u = "")); [done|].
    destruct (downloadResult net u); [|done]. by eauto.
  - intros [Hty (u & Hu & Hne & [c Hc])].
    rewrite decide_True, Hu, decide_False, Hc by done. by eexists.
Qed.

Lemma directFiles_one_each (items : list Item) :
  Forall2 (λ e r, recordOf net e = Some r)
    (filter (λ e, is_Some (recordOf net e)) items)
    (directFiles net items).
Proof.
  unfold directFiles. induction items as [|e items IH]; [constructor|].
  rewrite filter_cons.
  change (omap (recordOf net) (e :: items))
    with (match recordOf net e with
          | Some r => r :: omap (recordOf net) items
          | None => omap (recordOf net) items
          end).
  destruct (recordOf net e) as [r|] eqn:Hr.
  - rewrite decide_True by (by eexists). by constructor.
  - rewrite decide_False by (by intros [? ?]). done.
Qed.

End Collector.

(** C7. The downloader never raises: it returns the text of a successful
    response and null otherwise. A file entry yields a record exactly when
    it has a download reference and its download succeeds; the records of a
    listing are those of such entries, one each and in listing order.
    Whatever the collector returns starts with these records, followed only
    by what the sub-directories contribute; on a listing without
    sub-directories it returns exactly these records and cannot fail. *)
Theorem collectFiles_best_effort :
  ∀ (githubTokens : list string) (net : Request → FetchOutcome)
    (fuel : nat) (source : string) (items : list Item) (st : State),
    (∀ u st0, fetchFileContent net u st0
              = (Returns (downloadResult net u),
                 withRequests st0 [{| url := u; headers := ∅ |}]))
    ∧ (∀ e, is_Some (recordOf net e) ↔ downloadable net e)
    ∧ Forall2 (λ e r, recordOf net e = Some r)
        (filter (λ e, is_Some (recordOf net e)) items)
        (directFiles net items)
    ∧ length (directFiles net items)
      = length (filter (λ e, is_Some (recordOf net e)) items)
    ∧ (∀ out st',
          collectFiles githubTokens net fuel source items st
            = (Returns out, st') →
          ∃ nested, out = directFiles net items ++ nested)
    ∧ (dirEntries items = [] →
       fst (collectFiles githubTokens net (S fuel) source items st)
       = Returns (directFiles net items)).
Proof.
  intros tokens net fuel source items st.
  split; [apply fetchFileContent_returns|].
  split; [apply recordOf_downloadable|].
  split; [apply directFiles_one_each|].
  split; [eapply Forall2_length, Forall2_flip, directFiles_one_each|].
  assert (Hfiles : Forall (λ e, it_type e = "file") (fileEntries items)).
  { apply Forall_forall. intros e He.
    by apply list_elem_of_filter in He as [? _]. }
  split.
  - intros out st' Hrun. destruct fuel as [|fuel]; [discriminate|].
    cbn [collectFiles] in Hrun. unfold bind at 1 in Hrun.
    destruct (mapM_downloadEntry net _ st Hfiles) as [rqs Hmap].
    rewrite Hmap, omap_recordOf_fileEntries in Hrun.
    by eapply forEachDir_extends.
  - intros Hnodir. cbn [collectFiles]. unfold bind at 1.
    destruct (mapM_downloadEntry net _ st Hfiles) as [rqs Hmap].
    rewrite Hmap, omap_recordOf_fileEntries, Hnodir. done.
Qed.

Lemma collectFiles_best_effort_witness :
  dirEntries Fixtures.threeFiles = []
  ∧ fst (collectFiles [] Fixtures.rawNet 1 "acme/skills" Fixtures.threeFiles
           initialState)
    = Returns [ {| path := "pdf/SKILL.md"; name := "SKILL.md";
                   content := "# PDF" |};
                {| path := "pdf/forms.md"; name := "forms.md";
                   content := "forms" |} ].
Proof.
  split; [vm_compute; reflexivity|].
  destruct (collectFiles_best_effort [] Fixtures.rawNet 0 "acme/skills"
              Fixtures.threeFiles initialState) as (_ & _ & _ & _ & _ & H).
  rewrite H by (vm_compute; reflexivity).
  vm_compute. reflexivity.
Defined.

(* ===================================================================== *)
(** ** The orchestrator and the batch handler *)
(* ===================================================================== *)

(** The number of pieces of a split is one more than the number of
    separators in the string. *)
Lemma split_length (c : ascii) (s : string) :
  length (Js.split c s) = S (countChar c s).
Proof.
  induction s as [|a s IH]; [done|].
  cbn [Js.split countChar]. destruct (Ascii.eqb a c).
  - cbn [length]. by rewrite IH.
  - destruct (Js.split c s) as [|p ps]; [done|]. cbn [length] in *. lia.
Qed.

(** C6. An identifier with fewer than three segments, that is with fewer
    than two slashes, gets a result that echoes the identifier, has no file
    and a non-null error; the state, and with it the list of requests
    issued, is left untouched. Both entry points agree. *)
Theorem malformed_id_rejected_offline :
  ∀ (githubTokens : list string) (net : Request → FetchOutcome)
    (fuel : nat) (skillId : string) (st : State),
    length (Js.split "/" skillId) < 3 →
    countChar "/" skillId < 2
    ∧ Http.fetchSkillDetails githubTokens net fuel skillId st
      = (Returns {| id := skillId; files := [];
                    error := Some (invalidIdMessage skillId) |}, st)
    ∧ Stdio.fetchSkillDetails githubTokens net fuel skillId st
      = (Returns {| id := skillId; files := [];
                    error := Some (invalidIdMessage skillId) |}, st).
Proof.
  intros tokens net fuel skillId st Hlen.
  split; [rewrite split_length in Hlen; lia|].
  apply Nat.ltb_lt in Hlen.
  unfold Http.fetchSkillDetails, Stdio.fetchSkillDetails.
  rewrite Hlen. done.
Qed.

Lemma malformed_id_rejected_offline_witness :
  length (Js.split "/" "acme/skills") < 3
  ∧ Stdio.fetchSkillDetails ["t1"; "t2"] Fixtures.rateLimitedNet 5
      "acme/skills" initialState
    = (Returns {| id := "acme/skills"; files := [];
                  error := Some (invalidIdMessage "acme/skills") |},
       initialState).
Proof.
  split; [vm_compute; lia|].
  apply (malformed_id_rejected_offline ["t1"; "t2"] Fixtures.rateLimitedNet 5
           "acme/skills" initialState).
  vm_compute; lia.
Defined.

(** C1. The listing of the resolved folder is fetched before the try block
    is entered: when GitHub answers it with 403, the exception leaves
    [fetchSkillDetails] instead of becoming the error of a result. The same
    refusal one level down, inside the collector, is caught and becomes the
    error of the result. *)
Theorem fetchSkillDetails_throws_on_first_listing :
  fst (Http.fetchSkillDetails [] Fixtures.rateLimitedNet 8
         "acme/skills/pdf" initialState)
  = Throws "API rate limit exceeded"
  ∧ fst (Stdio.fetchSkillDetails [] Fixtures.rateLimitedNet 8
           "acme/skills/pdf" initialState)
    = Throws "API rate limit exceeded"
  ∧ fst (Http.fetchSkillDetails [] Fixtures.nestedRateLimitNet 8
           "acme/skills/pdf" initialState)
    = Returns {| id := "acme/skills/pdf"; files := [];
                 error := Some "API rate limit exceeded" |}
  ∧ fst (Stdio.fetchSkillDetails [] Fixtures.nestedRateLimitNet 8
           "acme/skills/pdf" initialState)
    = Returns {| id := "acme/skills/pdf"; files := [];
                 error := Some "API rate limit exceeded" |}.
Proof. repeat split; vm_compute; reflexivity. Qed.

(** C8. One identifier whose first folder listing is refused with 403
    turns the whole call into a single error: no result is returned for any
    identifier of the batch, although the third identifier, run alone, has a
    result of its own. *)
Theorem batch_lost_on_first_listing_403 :
  fst (Stdio.getSkillDetails [] Fixtures.rateLimitedNet 8
         ["acme/skills/pdf"] initialState)
  = Returns (ToolError "Error: API rate limit exceeded")
  ∧ fst (Stdio.getSkillDetails [] Fixtures.rateLimitedNet 8
           ["acme/skills/pdf"; "malformed"; "acme/other/xlsx"] initialState)
    = Returns (ToolError "Error: API rate limit exceeded")
  ∧ fst (Http.getSkillDetails [] Fixtures.rateLimitedNet 8
           ["acme/skills/pdf"; "malformed"; "acme/other/xlsx"] initialState)
    = Returns (ToolError
                 "Failed to fetch skill details: API rate limit exceeded")
  ∧ fst (Stdio.getSkillDetails [] Fixtures.rateLimitedNet 8
           ["acme/other/xlsx"] initialState)
    = Returns (ToolSkills
                 [{| id := "acme/other/xlsx"; files := [];
                     error := Some "GitHub Trees API returned 404" |}]).
Proof. repeat split; vm_compute; reflexivity. Qed.

(* ===================================================================== *)
(** ** The batch when no identifier throws *)
(* ===================================================================== *)


Section Batch.
Variable githubTokens : list string.
Variable net : Request → FetchOutcome.



End Batch.





(* ===================================================================== *)
(** ** Tokens go to the GitHub API only, in strict rotation *)
(* ===================================================================== *)

Lemma rotatorHeaders_nonempty (pool : list string) (c : nat) :
  rotatorHeaders pool c ≠ ∅.
Proof.
  unfold rotatorHeaders. destruct pool.
  - intros H. apply (f_equal (λ m : gmap string string, m !! "Accept")) in H.
    by rewrite lookup_singleton_eq, lookup_empty in H.
  - intros H.
    apply (f_equal (λ m : gmap string string, m !! "Authorization")) in H.
    by rewrite lookup_insert_eq, lookup_empty in H.
Qed.

Lemma getGitHubHeaders_rotator (pool : list string) (st : State) :
  getGitHubHeaders pool st
  = (Returns (rotatorHeaders pool (tokenIndex st)),
     {| tokenIndex := nextCursor pool (tokenIndex st);
        issued := issued st |}).
Proof. destruct pool; [by destruct st | reflexivity]. Qed.

Lemma replay_app (pool : list string) (a b : list Request) :
  ∀ c, replay pool c (a ++ b)
       = match replay pool c a with
         | Some c' => replay pool c' b
         | None => None
         end.
Proof.
  induction a as [|rq a IH]; intros c; [done|].
  cbn [app replay]. repeat case_decide; by rewrite ?IH.
Qed.

Lemma Extends_refl (pool : list string) (st : State) : Extends pool st st.
Proof. exists []. by rewrite app_nil_r. Qed.

Lemma Extends_trans (pool : list string) (st1 st2 st3 : State) :
  Extends pool st1 st2 → Extends pool st2 st3 → Extends pool st1 st3.
Proof.
  intros (a & Ha & Hra) (b & Hb & Hrb). exists (a ++ b). split.
  - by rewrite Hb, Ha, app_assoc.
  - by rewrite replay_app, Hra.
Qed.

Section Traces.
Variable githubTokens : list string.
Variable net : Request → FetchOutcome.

Lemma Traced_ret {A} (a : A) : Traced githubTokens (ret a).
Proof. intros st o st' [= _ <-]. apply Extends_refl. Qed.

Lemma Traced_throw {A} (msg : string) : Traced githubTokens (@throw A msg).
Proof. intros st o st' [= _ <-]. apply Extends_refl. Qed.

Lemma Traced_bind {A B} (m : M A) (k : A → M B) :
  Traced githubTokens m → (∀ a, Traced githubTokens (k a)) →
  Traced githubTokens (bind m k).
Proof.
  intros Hm Hk st o st' Hrun. unfold bind in Hrun.
  destruct (m st) as [[a|msg|] st1] eqn:Hst.
  - eapply Extends_trans; [by eapply Hm | by eapply Hk].
  - injection Hrun as _ <-. by eapply Hm.
  - injection Hrun as _ <-. by eapply Hm.
Qed.

Lemma Traced_tryCatch {A} (body : M A) (handler : string → M A) :
  Traced githubTokens body → (∀ msg, Traced githubTokens (handler msg)) →
  Traced githubTokens (tryCatch body handler).
Proof.
  intros Hb Hh st o st' Hrun. unfold tryCatch in Hrun.
  destruct (body st) as [[a|msg|] st1] eqn:Hst.
  - injection Hrun as _ <-. by eapply Hb.
  - eapply Extends_trans; [by eapply Hb | by eapply Hh].
  - injection Hrun as _ <-. by eapply Hb.
Qed.

Lemma Traced_mapM {A B} (f : A → M B) (l : list A) :
  (∀ x, Traced githubTokens (f x)) → Traced githubTokens (mapM f l).
Proof.
  intros Hf. induction l as [|x l IH]; cbn [mapM]; [apply Traced_ret|].
  apply Traced_bind; [done|]. intros y.
  apply Traced_bind; [done|]. intros ys. apply Traced_ret.
Qed.

(** A download: [fetch] without headers. *)
Lemma Traced_download (u : string) : Traced githubTokens (fetch net u ∅).
Proof.
  intros st o st' Hrun. unfold fetch in Hrun.
  exists [{| url := u; headers := ∅ |}].
  assert (st' = {| tokenIndex := tokenIndex st;
                   issued := issued st ++ [{| url := u; headers := ∅ |}] |})
    as -> by (destruct (net _); by injection Hrun as _ <-).
  split; [done|]. cbn [replay headers]. by rewrite decide_True.
Qed.

(** An API call: the rotator's headers, then [fetch] on a GitHub URL. *)
Lemma Traced_api {A} (u : string) (k : Response → M A) :
  Js.startsWith u (GITHUB_API_URL +:+ "/repos/") = true →
  (∀ resp, Traced githubTokens (k resp)) →
  Traced githubTokens
    (h <~ getGitHubHeaders githubTokens ;; resp <~ fetch net u h ;; k resp).
Proof.
  intros Hu Hk st o st' Hrun. unfold bind at 1 in Hrun.
  rewrite getGitHubHeaders_rotator in Hrun.
  set (h := rotatorHeaders githubTokens (tokenIndex st)) in *.
  set (st1 := {| tokenIndex := nextCursor githubTokens (tokenIndex st);
                 issued := issued st ++ [{| url := u; headers := h |}] |}).
  assert (Hfirst : Extends githubTokens st st1).
  { exists [{| url := u; headers := h |}]. split; [done|].
    cbn [replay headers]. rewrite decide_False by apply rotatorHeaders_nonempty.
    by rewrite decide_True. }
  unfold bind at 1, fetch in Hrun. cbn [tokenIndex issued] in Hrun.
  fold st1 in Hrun. destruct (net _) as [msg|resp].
  - injection Hrun as _ <-. exact Hfirst.
  - eapply Extends_trans; [exact Hfirst | by eapply Hk].
Qed.

Lemma Traced_fetchFileContent (u : string) :
  Traced githubTokens (fetchFileContent net u).
Proof.
  apply Traced_tryCatch; [|intros; apply Traced_ret].
  apply Traced_bind; [apply Traced_download|]. intros resp.
  destruct (ok resp); [|apply Traced_ret].
  apply Traced_bind; [|intros; apply Traced_ret].
  unfold respText. destruct (text resp); [apply Traced_throw | apply Traced_ret].
Qed.

Lemma Traced_downloadEntry (e : Item) :
  Traced githubTokens (downloadEntry net e).
Proof.
  unfold downloadEntry. destruct (negb _); [apply Traced_ret|].
  apply Traced_bind; [apply Traced_fetchFileContent|].
  intros [c|]; apply Traced_ret.
Qed.

Lemma Traced_respJson (resp : Response) : Traced githubTokens (respJson resp).
Proof.
  unfold respJson. destruct (json resp); [apply Traced_throw | apply Traced_ret].
Qed.

Lemma contentsUrl_api (source p : string) :
  Js.startsWith (contentsUrl source p) (GITHUB_API_URL +:+ "/repos/") = true.
Proof.
  apply startsWith_spec. exists (source +:+ "/contents/" +:+ p). reflexivity.
Qed.


Lemma Traced_fetchFolderContents (source p : string) :
  Traced githubTokens (fetchFolderContents githubTokens net source p).
Proof.
  apply Traced_api; [apply contentsUrl_api|]. intros resp.
  destruct (status resp =? 403); [apply Traced_throw|].
  destruct (negb (ok resp)); [apply Traced_ret|].
  apply Traced_bind; [apply Traced_respJson | intros; apply Traced_ret].
Qed.

Lemma Traced_forEachDir (recur : list Item → M (list FileRecord))
    (source : string) (dirs : list Item) :
  (∀ items, Traced githubTokens (recur items)) →
  ∀ files, Traced githubTokens
             (forEachDir githubTokens net recur source dirs files).
Proof.
  intros Hrec. induction dirs as [|d dirs IH]; intros files; cbn [forEachDir].
  - apply Traced_ret.
  - destruct (negb _); [apply IH|].
    apply Traced_bind; [apply Traced_fetchFolderContents|].
    intros [sub|]; [|apply IH].
    apply Traced_bind; [apply Hrec | intros; apply IH].
Qed.

Lemma Traced_collectFiles (fuel : nat) (source : string) :
  ∀ items, Traced githubTokens (collectFiles githubTokens net fuel source items).
Proof.
  induction fuel as [|fuel IH]; intros items; cbn [collectFiles].
  - intros st o st' [= _ <-]. apply Extends_refl.
  - apply Traced_bind; [apply Traced_mapM, Traced_downloadEntry|].
    intros results. by apply Traced_forEachDir.
Qed.





End Traces.




(* ===================================================================== *)
(** ** What the resolver and the orchestrator can return *)
(* ===================================================================== *)

Lemma insertSorted_perm (x : Stdio.Candidate) (l : list Stdio.Candidate) :
  Stdio.insertSorted x l ≡ₚ x :: l.
Proof.
  induction l as [|y l IH]; cbn [Stdio.insertSorted]; [done|].
  destruct (Stdio.comesAfter y x); [done|].
  rewrite IH. apply Permutation_swap.
Qed.

Lemma sortCandidates_perm (l : list Stdio.Candidate) :
  Stdio.sortCandidates l ≡ₚ l.
Proof.
  unfold Stdio.sortCandidates.
  induction l as [|x l IH] using rev_ind; [done|].
  rewrite foldl_app. cbn [foldl].
  rewrite insertSorted_perm, IH. apply Permutation_cons_append.
Qed.

(** On at least one folder, the fuzzy tier answers with a listed folder or
    with an error, never with both or neither. *)
Lemma fuzzyMatch_shape (skillId : string) (folders : list string) :
  folders ≠ [] →
  OnePopulated (Stdio.fuzzyMatch skillId folders)
  ∧ ∀ p, folderPath (Stdio.fuzzyMatch skillId folders) = Some p → p ∈ folders.
Proof.
  intros Hne. unfold Stdio.fuzzyMatch.
  pose proof (sortCandidates_perm (Stdio.scoreCandidate skillId <$> folders))
    as Hperm.
  destruct (Stdio.sortCandidates _) as [|best rest].
  { apply Permutation_nil_l in Hperm. by destruct folders. }
  assert (Hbest : best ∈ Stdio.scoreCandidate skillId <$> folders).
  { rewrite <- Hperm. left. }
  apply list_elem_of_fmap in Hbest as (fp & -> & Hfp).
  destruct (Stdio.atLeastThreshold _).
  - split; [right; by split|]. by intros p [= <-].
  - split; [left; by split|]. by intros p.
Qed.

Lemma resolveInTree_shape (tree : list TreeEntry) (skillId : string) :
  OnePopulated (Stdio.resolveInTree tree skillId)
  ∧ ∀ p, folderPath (Stdio.resolveInTree tree skillId) = Some p →
         comesFromTree tree skillId p.
Proof.
  unfold Stdio.resolveInTree.
  destruct (exactCandidates tree skillId) as [|first rest] eqn:Hc.
  - pose proof (proj1 (exactCandidates_nil tree skillId) Hc) as Hnone.
    assert (Hparent : ∀ p,
      p ∈ ((λ e, Stdio.parentFolder (te_path e))
             <$> filter (λ e, Stdio.isSkillMd e = true) tree) →
      comesFromTree tree skillId p).
    { intros p (e & -> & He)%list_elem_of_fmap.
      apply list_elem_of_filter in He as [Hm He].
      right. split; [done|]. exists e. split; [done|].
      split; [by apply isSkillMd_spec | done]. }
    destruct (filter (λ e, Stdio.isSkillMd e = true) tree) as [|e1 [|e2 more]].
    + split; [left; by split | done].
    + split; [right; by split|]. intros p [= <-]. apply Hparent. left.
    + destruct (fuzzyMatch_shape skillId
                  ((λ e, Stdio.parentFolder (te_path e)) <$> e1 :: e2 :: more))
        as [Hone Hin]; [done|].
      split; [exact Hone|]. intros p Hp. apply Hparent. by apply Hin.
  - split; [right; by split|]. intros p [= <-].
    destruct (reduce_shorter_pick skillId tree first rest Hc)
      as (i & e & (Hi & Hn & _) & Hp).
    left. exists e. split; [by eapply list_elem_of_lookup_2|]. by split.
Qed.

(** Every match returned by [findSkillFolder], in either entry point and
    on whatever the network answers, has exactly one of its two fields
    set: a path without an error, or an error without a path. *)
Theorem findSkillFolder_one_populated :
  ∀ (githubTokens : list string) (net : Request → FetchOutcome)
    (source skillId : string) (st : State),
    match fst (Stdio.findSkillFolder githubTokens net source skillId st) with
    | Returns r => OnePopulated r
    | _ => True
    end
    ∧ match fst (Http.findSkillFolder githubTokens net source skillId st) with
      | Returns r => OnePopulated r
      | _ => True
      end.
Proof.
  intros tokens net source skillId st. split.
  - unfold Stdio.findSkillFolder, bind at 1.
    rewrite getGitHubHeaders_rotator. unfold bind at 1, fetch.
    destruct (net _) as [msg|resp]; [done|].
    destruct (status resp =? 403); [left; by split|].
    destruct (negb (ok resp)); [left; by split|].
    unfold bind, respJson. destruct (json resp) as [msg|data]; [done|].
    apply resolveInTree_shape.
  - unfold Http.findSkillFolder, bind at 1.
    rewrite getGitHubHeaders_rotator. unfold bind at 1, fetch.
    destruct (net _) as [msg|resp]; [done|].
    destruct (status resp =? 403); [left; by split|].
    destruct (negb (ok resp)); [left; by split|].
    unfold bind, respJson. destruct (json resp) as [msg|data]; [done|].
    unfold ret. cbv zeta.
    destruct (exactCandidates (treeOf data) skillId); [left | right]; by split.
Qed.

(** On a network that serves the tree, a folder returned by either entry
    point is a directory of the tree that names the skill or, in stdio.mjs
    and only when no directory does, the parent of a blob of the tree whose
    path ends in skill.md: the resolver never makes a path up. *)
Theorem resolved_folder_comes_from_tree :
  ∀ (githubTokens : list string) (net : Request → FetchOutcome)
    (source skillId : string) (data : Json) (st : State),
    servesTree net source data →
    (∀ r, fst (Stdio.findSkillFolder githubTokens net source skillId st)
          = Returns r →
          ∀ p, folderPath r = Some p → comesFromTree (treeOf data) skillId p)
    ∧ (∀ r, fst (Http.findSkillFolder githubTokens net source skillId st)
            = Returns r →
            ∀ p, folderPath r = Some p →
                 ∃ e, e ∈ treeOf data ∧ namesFolder skillId e ∧ te_path e = p).
Proof.
  intros tokens net source skillId data st Hserved. split.
  - rewrite (stdio_findSkillFolder_served tokens net source skillId data st
               Hserved).
    intros r [= <-]. apply resolveInTree_shape.
  - rewrite (http_findSkillFolder_served tokens net source skillId data st
               Hserved).
    intros r [= <-] p.
    destruct (exactCandidates (treeOf data) skillId) as [|first rest] eqn:Hc;
      [done|].
    intros [= <-].
    destruct (reduce_shorter_pick skillId _ first rest Hc)
      as (i & e & (Hi & Hn & _) & Hp).
    exists e. split; [by eapply list_elem_of_lookup_2|]. by split.
Qed.

Lemma resolved_folder_comes_from_tree_witness :
  servesTree Fixtures.monoNet "acme/mono"
    (JObject None (Some Fixtures.rootAndFolder))
  ∧ comesFromTree Fixtures.rootAndFolder "examples" "examples".
Proof.
  assert (Hs : servesTree Fixtures.monoNet "acme/mono"
                 (JObject None (Some Fixtures.rootAndFolder))).
  { eexists. split; [intros h; reflexivity|]. split; reflexivity. }
  split; [exact Hs|].
  apply (proj1 (resolved_folder_comes_from_tree [] Fixtures.monoNet
                  "acme/mono" "examples" _ initialState Hs)
           {| folderPath := Some "examples"; findError := None |}).
  - vm_compute. reflexivity.
  - reflexivity.
Defined.

(** A result of [fetchSkillDetails] echoes the identifier and never
    carries files next to an error: every path that sets an error returns
    an empty file list. *)
Theorem fetchSkillDetails_files_or_error :
  ∀ (githubTokens : list string) (net : Request → FetchOutcome)
    (fuel : nat) (skillId : string) (st : State),
    match fst (Stdio.fetchSkillDetails githubTokens net fuel skillId st) with
    | Returns r => id r = skillId ∧ FilesOrError r
    | _ => True
    end
    ∧ match fst (Http.fetchSkillDetails githubTokens net fuel skillId st) with
      | Returns r => id r = skillId ∧ FilesOrError r
      | _ => True
      end.
Proof.
  intros tokens net fuel skillId st. split.
  - unfold Stdio.fetchSkillDetails.
    destruct (_ <? 3); [split; [done | by right]|].
    unfold bind at 1.
    destruct (Stdio.findSkillFolder _ _ _ _ _) as [[found|msg|] st1]; [|done..].
    destruct (_ || _); [split; [done | by right]|].
    unfold bind at 1.
    destruct (fetchFolderContents _ _ _ _ _) as [[[items|]|msg|] st2];
      [|split; [done | by right]|done..].
    unfold tryCatch, bind.
    destruct (collectFiles _ _ _ _ _ _) as [[fs|msg|] st3];
      [split; [done | by left] | split; [done | by right] | done].
  - unfold Http.fetchSkillDetails.
    destruct (_ <? 3); [split; [done | by right]|].
    unfold bind at 1.
    destruct (Http.findSkillFolder _ _ _ _ _) as [[found|msg|] st1]; [|done..].
    destruct (_ || _); [split; [done | by right]|].
    unfold bind at 1.
    destruct (fetchFolderContents _ _ _ _ _) as [[[items|]|msg|] st2];
      [|split; [done | by right]|done..].
    unfold tryCatch, bind.
    destruct (collectFiles _ _ _ _ _ _) as [[fs|msg|] st3];
      [split; [done | by left] | split; [done | by right] | done].
Qed.

(* ===================================================================== *)
(** ** A refused tree request *)
(* ===================================================================== *)



(* ===================================================================== *)
(** ** The range of the scores *)
(* ===================================================================== *)

Lemma ratio_bounds (a b : nat) :
  a ≤ b → 0 < b →
  (0 <= Z.of_nat a # Pos.of_nat b)%Q ∧ (Z.of_nat a # Pos.of_nat b <= 1)%Q.
Proof.
  intros Hab Hb. unfold Qle. cbn [Qnum Qden].
  rewrite <- (positive_nat_Z (Pos.of_nat b)), Nat2Pos.id by lia. lia.
Qed.

Lemma addBonus_bounds (q : Q) :
  (0 <= q)%Q → (q <= 1)%Q →
  (1 # 2 <= Qmin (q + (1 # 2)) 1)%Q ∧ (Qmin (q + (1 # 2)) 1 <= 1)%Q.
Proof.
  intros H0 H1.
  destruct (Q.min_spec (q + (1 # 2)) 1) as [[Hlt ->]|[Hle ->]]; split; lra.
Qed.

Lemma tokenSet_empty_length (s : string) :
  tokenSet s = ∅ ↔ length (Stdio.tokens s) = 0.
Proof.
  rewrite tokens_length. split.
  - intros ->. apply size_empty.
  - intros H. by apply leibniz_equiv, size_empty_iff.
Qed.

(** Every score, case by case. *)
Lemma scoreCandidate_cases (skillId fp : string) :
  ∃ name,
    finalSegment fp name
    ∧ Stdio.c_folderPath (Stdio.scoreCandidate skillId fp) = fp
    ∧ Stdio.c_folderName (Stdio.scoreCandidate skillId fp) = name
    ∧ match Stdio.c_score (Stdio.scoreCandidate skillId fp) with
      | NaN => tokenSet skillId = ∅ ∧ tokenSet name = ∅
      | Num q =>
          ¬ (tokenSet skillId = ∅ ∧ tokenSet name = ∅)
          ∧ (0 <= q)%Q ∧ (q <= 1)%Q
          ∧ (eitherContains name skillId → (1 # 2 <= q)%Q)
      end.
Proof.
  destruct (finalSegment_total fp) as [name Hname]. exists name.
  split; [done|]. split; [done|].
  unfold Stdio.scoreCandidate.
  rewrite (finalSegment_pop fp name Hname). cbn [from_option].
  unfold Datatypes.id. cbn [Stdio.c_folderName Stdio.c_score].
  split; [done|].
  pose proof (commonTokens_bounded name skillId) as Hle.
  set (a := length (Js.newSet _)) in *.
  set (b := Nat.max _ _) in *.
  assert (Hb : b = 0 ↔ tokenSet skillId = ∅ ∧ tokenSet name = ∅).
  { rewrite !tokenSet_empty_length. subst b. lia. }
  assert (Hinc : Js.includes skillId name || Js.includes name skillId = true
                 ↔ eitherContains name skillId).
  { unfold eitherContains. by rewrite orb_true_iff, !includes_spec. }
  unfold Stdio.divide. destruct (Nat.eqb_spec b 0) as [H0|H0].
  - destruct (_ || _); by apply Hb.
  - destruct (ratio_bounds a b Hle ltac:(lia)) as [Hlo Hhi].
    destruct (_ || _); cbn [Stdio.addBonus].
    + destruct (addBonus_bounds _ Hlo Hhi) as [Hlo' Hhi'].
      split; [by rewrite <- Hb|]. split; [lra|]. split; [lra | done].
    + split; [by rewrite <- Hb|]. split; [done|]. split; [done|].
      intros Hc. by apply Hinc in Hc.
Qed.

(** A score is NaN exactly when the skill identifier and the final segment
    of the folder both have no token; otherwise it is a number between 0
    and 1, and at least 1/2 when either string contains the other. *)
Theorem score_is_nan_or_in_unit_interval :
  ∀ (skillId fp : string),
    ∃ name,
      finalSegment fp name
      ∧ match Stdio.c_score (Stdio.scoreCandidate skillId fp) with
        | NaN => tokenSet skillId = ∅ ∧ tokenSet name = ∅
        | Num q =>
            ¬ (tokenSet skillId = ∅ ∧ tokenSet name = ∅)
            ∧ (0 <= q)%Q ∧ (q <= 1)%Q
            ∧ (eitherContains name skillId → (1 # 2 <= q)%Q)
        end.
Proof.
  intros skillId fp.
  destruct (scoreCandidate_cases skillId fp) as (name & Hn & _ & _ & Hs).
  by exists name.
Qed.

Lemma scores_are_numbers (skillId : string) (folders : list string) :
  tokenSet skillId ≠ ∅ →
  Forall (λ c, ∃ q, Stdio.c_score c = Num q)
    (Stdio.scoreCandidate skillId <$> folders).
Proof.
  intros Htok. apply Forall_fmap, Forall_forall. intros fp _. unfold compose.
  destruct (scoreCandidate_cases skillId fp) as (name & _ & _ & _ & Hs).
  destruct (Stdio.c_score _) as [q|]; [by exists q|]. by destruct Hs.
Qed.

(** For a skill identifier with a token: as soon as one candidate folder
    has a final segment that contains the identifier or is contained in it,
    the fuzzy tier returns a listed folder; a manifest at the repository
    root is such a candidate for every identifier. When the tier fails
    instead, the percentage it reports lies between 0 and 30. *)
Theorem substring_candidate_clears_threshold :
  ∀ (skillId : string) (folders : list string),
    tokenSet skillId ≠ ∅ →
    (∀ fp name,
        fp ∈ folders → finalSegment fp name → eitherContains name skillId →
        ∃ p, p ∈ folders
             ∧ Stdio.fuzzyMatch skillId folders
               = {| folderPath := Some p; findError := None |})
    ∧ ("" ∈ folders →
       ∃ p, p ∈ folders
            ∧ Stdio.fuzzyMatch skillId folders
              = {| folderPath := Some p; findError := None |})
    ∧ (∀ msg,
          Stdio.fuzzyMatch skillId folders
            = {| folderPath := None; findError := Some msg |} →
          ∃ name z,
            (0 ≤ z ≤ 30)%Z
            ∧ msg = "No matching skill folder found (best match: "
                    +:+ name +:+ " at " +:+ pretty z +:+ "%)").
Proof.
  intros skillId folders Htok.
  pose proof (scores_are_numbers skillId folders Htok) as Hall.
  assert (Hsub : ∀ fp name,
            fp ∈ folders → finalSegment fp name → eitherContains name skillId →
            ∃ p, p ∈ folders
                 ∧ Stdio.fuzzyMatch skillId folders
                   = {| folderPath := Some p; findError := None |}).
  { intros fp name Hfp Hname Hc.
    assert (Hne : Stdio.scoreCandidate skillId <$> folders ≠ [])
      by (destruct folders; [by apply not_elem_of_nil in Hfp | done]).
    destruct (sortCandidates_head _ Hall Hne)
      as (i & best & rest & qb & Hsort & Hi & Hqb & Hmax).
    apply list_elem_of_lookup_1 in Hfp as [j Hj].
    destruct (scoreCandidate_cases skillId fp) as (name' & Hn' & _ & _ & Hs).
    assert (name' = name) as ->.
    { apply (inj Some). by rewrite <- !(finalSegment_pop fp). }
    destruct (Stdio.c_score (Stdio.scoreCandidate skillId fp)) as [q|] eqn:Hq;
      [|by destruct Hs].
    destruct Hs as (_ & _ & _ & Hhalf). specialize (Hhalf Hc).
    destruct (Hmax j (Stdio.scoreCandidate skillId fp) q) as [Hle _];
      [by rewrite list_lookup_fmap, Hj | done |].
    rewrite list_lookup_fmap in Hi.
    destruct (folders !! i) as [bp|] eqn:Hbp; [|done]. injection Hi as <-.
    exists bp. split; [by eapply list_elem_of_lookup_2|].
    unfold Stdio.fuzzyMatch. rewrite Hsort, Hqb.
    cbn [Stdio.atLeastThreshold].
    rewrite (proj2 (Qle_bool_iff _ _)) by lra.
    destruct (scoreCandidate_cases skillId bp) as (_ & _ & -> & _). done. }
  split; [exact Hsub|]. split.
  - intros Hroot. apply (Hsub "" ""); [done | by split; [|left] |].
    left. by exists "", skillId.
  - intros msg Hfail.
    assert (Hne : Stdio.scoreCandidate skillId <$> folders ≠ []).
    { intros Hnil. apply fmap_nil_inv in Hnil. by subst folders. }
    unfold Stdio.fuzzyMatch in Hfail.
    destruct (sortCandidates_head _ Hall Hne)
      as (i & best & rest & qb & Hsort & Hi & Hqb & _).
    rewrite Hsort, Hqb in Hfail. cbn [Stdio.atLeastThreshold] in Hfail.
    destruct (Qle_bool (3 # 10) qb) eqn:Hthr; [done|].
    injection Hfail as <-.
    assert (Hlt : (qb < 3 # 10)%Q).
    { apply Qnot_le_lt. intros H. apply Qle_bool_iff in H. congruence. }
    rewrite list_lookup_fmap in Hi.
    destruct (folders !! i) as [bp|] eqn:Hbp; [|done]. injection Hi as <-.
    destruct (scoreCandidate_cases skillId bp) as (name & _ & _ & Hname & Hs).
    rewrite Hqb in Hs. destruct Hs as (_ & Hlo & _).
    destruct (showPercent_spec qb) as (z & [Hz1 Hz2] & Hshow).
    exists name, z. split.
    + assert (inject_Z z < 31)%Q by lra. assert (-1 < inject_Z z)%Q by lra.
      change 31%Q with (inject_Z 31) in *. change (-1)%Q with (inject_Z (-1)) in *.
      rewrite <- Zlt_Qlt in *. lia.
    + unfold Stdio.noMatchMessage. by rewrite Hname, Hqb, Hshow.
Qed.

Lemma substring_candidate_clears_threshold_witness :
  tokenSet "pdf" ≠ ∅
  ∧ ∃ p, p ∈ [""; "examples"]
         ∧ Stdio.fuzzyMatch "pdf" [""; "examples"]
           = {| folderPath := Some p; findError := None |}.
Proof.
  assert (H1 : tokenSet "pdf" ≠ ∅).
  { intros H. assert (Hin : "pdf" ∈ tokenSet "pdf").
    { apply elem_of_list_to_set. vm_compute. left. }
    rewrite H in Hin. by apply not_elem_of_empty in Hin. }
  split; [exact H1|].
  apply (substring_candidate_clears_threshold "pdf" [""; "examples"] H1).
  left.
Defined.

(* ===================================================================== *)
(** ** The two entry points side by side *)
(* ===================================================================== *)

Section Agreement.
Variable githubTokens : list string.
Variable net : Request → FetchOutcome.

Lemma http_path_is_stdio_path (source skillId : string) (st st1 : State)
    (found : FolderMatch) :
  Http.findSkillFolder githubTokens net source skillId st
    = (Returns found, st1) →
  folderPath found ≠ None →
  Stdio.findSkillFolder githubTokens net source skillId st
    = (Returns found, st1).
Proof.
  intros Hrun Hp.
  unfold Http.findSkillFolder in Hrun. unfold Stdio.findSkillFolder.
  unfold bind at 1 in Hrun. unfold bind at 1.
  rewrite getGitHubHeaders_rotator in *.
  unfold bind at 1, fetch in Hrun. unfold bind at 1, fetch.
  destruct (net _) as [msg|resp]; [done|].
  destruct (status resp =? 403); [done|].
  destruct (negb (ok resp)); [done|].
  unfold bind, respJson in *. destruct (json resp) as [msg|data]; [done|].
  unfold ret in *. cbv zeta in Hrun. unfold Stdio.resolveInTree.
  destruct (exactCandidates (treeOf data) skillId) as [|first rest];
    [|done].
  injection Hrun as <- _. done.
Qed.

End Agreement.

(** Whenever index.ts resolves a folder, stdio.mjs resolves the same one
    from the same state; and whenever index.ts returns a result without an
    error, stdio.mjs returns the same result after the same requests. The
    tiers that stdio.mjs adds only act where index.ts gives up. *)
Theorem stdio_agrees_where_http_succeeds :
  ∀ (githubTokens : list string) (net : Request → FetchOutcome)
    (fuel : nat) (st st' : State),
    (∀ source skillId found,
        Http.findSkillFolder githubTokens net source skillId st
          = (Returns found, st') →
        folderPath found ≠ None →
        Stdio.findSkillFolder githubTokens net source skillId st
          = (Returns found, st'))
    ∧ (∀ skillId r,
          Http.fetchSkillDetails githubTokens net fuel skillId st
            = (Returns r, st') →
          error r = None →
          Stdio.fetchSkillDetails githubTokens net fuel skillId st
            = (Returns r, st')).
Proof.
  intros tokens net fuel st st'. split.
  - intros source skillId found. apply http_path_is_stdio_path.
  - intros skillId r Hrun Herr.
    unfold Http.fetchSkillDetails in Hrun. unfold Stdio.fetchSkillDetails.
    destruct (_ <? 3); [by injection Hrun as <- _|].
    unfold bind at 1 in Hrun. unfold bind at 1.
    destruct (Http.findSkillFolder _ _ _ _ _) as [[found|msg|] st1] eqn:Hfind;
      [|done..].
    destruct (truthy (findError found)) eqn:Herr1;
      [by injection Hrun as <- _|].
    destruct (folderPath found) as [p|] eqn:Hp;
      [|by injection Hrun as <- _].
    rewrite (http_path_is_stdio_path tokens net _ _ _ _ _ Hfind)
      by (by rewrite Hp).
    rewrite Herr1, Hp.
    rewrite bool_decide_eq_false_2 by done.
    cbn [orb] in *. destruct (negb (truthy (Some p)));
      [by injection Hrun as <- _|].
    exact Hrun.
Qed.

Lemma stdio_agrees_where_http_succeeds_witness :
  Stdio.fetchSkillDetails [] MoreFixtures.servedNet 8 "acme/skills/pdf"
    initialState
  = Http.fetchSkillDetails [] MoreFixtures.servedNet 8 "acme/skills/pdf"
      initialState.
Proof.
  apply (proj2 (stdio_agrees_where_http_succeeds [] MoreFixtures.servedNet 8
                  initialState
                  (snd (Http.fetchSkillDetails [] MoreFixtures.servedNet 8
                          "acme/skills/pdf" initialState)))
           "acme/skills/pdf"
           (match fst (Http.fetchSkillDetails [] MoreFixtures.servedNet 8
                         "acme/skills/pdf" initialState) with
            | Returns r => r
            | _ => {| id := ""; files := []; error := None |}
            end)).
  - vm_compute. reflexivity.
  - vm_compute. reflexivity.
Defined.

(* ===================================================================== *)
(** ** The collector: its requests, what it ignores, how deep it goes *)
(* ===================================================================== *)

Lemma omap_cons_eq {A B} (f : A → option B) (x : A) (l : list A) :
  omap f (x :: l)
  = match f x with Some y => y :: omap f l | None => omap f l end.
Proof. reflexivity. Qed.

Section CollectorMore.
Variable githubTokens : list string.
Variable net : Request → FetchOutcome.

Lemma downloadEntry_exact (e : Item) (st : State) :
  it_type e = "file" →
  downloadEntry net e st
  = (Returns (recordOf net e),
     withRequests st (from_option (λ rq, [rq]) [] (downloadRequest e))).
Proof.
  intros Hty. unfold downloadEntry, recordOf, downloadRequest.
  rewrite !decide_True by done.
  destruct (it_download_url e) as [u|] eqn:Hu;
    cbn [truthy negb from_option]; unfold Datatypes.id.
  - destruct (decide (u = "")) as [->|Hne]; cbn [from_option].
    + unfold ret, withRequests. rewrite app_nil_r. by destruct st.
    + apply String.eqb_neq in Hne. rewrite Hne. cbn [negb].
      unfold bind. rewrite fetchFileContent_returns.
      destruct (downloadResult net u); reflexivity.
  - unfold ret, withRequests. rewrite app_nil_r. by destruct st.
Qed.

Lemma mapM_downloadEntry_exact (es : list Item) (st : State) :
  Forall (λ e, it_type e = "file") es →
  mapM (downloadEntry net) es st
  = (Returns (recordOf net <$> es), withRequests st (downloadRequests es)).
Proof.
  intros Hall. revert st. induction Hall as [|e es He _ IH]; intros st.
  - unfold withRequests. cbn. rewrite app_nil_r. by destruct st.
  - cbn [mapM]. unfold bind at 1. rewrite (downloadEntry_exact e st He).
    unfold bind at 1. rewrite IH, withRequests_app. unfold ret.
    do 2 f_equal. unfold downloadRequests.
    rewrite omap_cons_eq. by destruct (downloadRequest e).
Qed.

Lemma downloadRequests_fileEntries (items : list Item) :
  downloadRequests (fileEntries items) = downloadRequests items.
Proof.
  unfold downloadRequests, fileEntries.
  induction items as [|e items IH]; [done|].
  rewrite filter_cons. destruct (decide (it_type e = "file")) as [He|He].
  - rewrite !omap_cons_eq. by rewrite IH.
  - rewrite IH, omap_cons_eq.
    assert (downloadRequest e = None) as ->; [|done].
    unfold downloadRequest. by rewrite decide_False.
Qed.

Lemma fileEntries_all_files (items : list Item) :
  Forall (λ e, it_type e = "file") (fileEntries items).
Proof.
  apply Forall_forall. intros e He.
  by apply list_elem_of_filter in He as [? _].
Qed.

(** The first half of [collectFiles]: the downloads. *)
Lemma collectFiles_unfold (fuel : nat) (source : string) (items : list Item)
    (st : State) :
  collectFiles githubTokens net (S fuel) source items st
  = forEachDir githubTokens net (collectFiles githubTokens net fuel source)
      source (dirEntries items) (directFiles net items)
      (withRequests st (downloadRequests items)).
Proof.
  cbn [collectFiles]. unfold bind at 1.
  rewrite (mapM_downloadEntry_exact _ st (fileEntries_all_files items)).
  by rewrite omap_recordOf_fileEntries, downloadRequests_fileEntries.
Qed.

Lemma forEachDir_skips (recur : list Item → M (list FileRecord))
    (source : string) (dirs : list Item) :
  ∀ files st,
    forEachDir githubTokens net recur source dirs files st
    = forEachDir githubTokens net recur source
        (filter (λ e, truthy (it_path e) = true) dirs) files st.
Proof.
  induction dirs as [|d dirs IH]; intros files st; [done|].
  rewrite filter_cons. cbn [forEachDir].
  destruct (truthy (it_path d)) eqn:Hd; cbn [negb].
  - rewrite decide_True by done. cbn [forEachDir]. rewrite Hd. cbn [negb].
    unfold bind at 1 3.
    destruct (fetchFolderContents _ _ _ _ _) as [[[sub|]|msg|] st1];
      [|by rewrite IH|done..].
    unfold bind.
    destruct (recur sub st1) as [[subFiles|msg|] st2]; [by rewrite IH|done..].
  - rewrite decide_False by done. apply IH.
Qed.

Lemma directFiles_relevant (items : list Item) :
  directFiles net (filter relevant items) = directFiles net items.
Proof.
  unfold directFiles. induction items as [|e items IH]; [done|].
  rewrite filter_cons. destruct (decide (relevant e)) as [He|He].
  - rewrite !omap_cons_eq. by rewrite IH.
  - rewrite IH, omap_cons_eq.
    assert (recordOf net e = None) as ->; [|done].
    unfold recordOf.
    destruct (decide (it_type e = "file")) as [Hty|]; [|done].
    destruct (it_download_url e) as [u|] eqn:Hu; [|done].
    destruct (decide (u = "")) as [|Hne]; [done|].
    exfalso. apply He. left. split; [done|]. rewrite Hu.
    apply truthy_Some. by exists u.
Qed.

Lemma downloadRequests_relevant (items : list Item) :
  downloadRequests (filter relevant items) = downloadRequests items.
Proof.
  unfold downloadRequests. induction items as [|e items IH]; [done|].
  rewrite filter_cons. destruct (decide (relevant e)) as [He|He].
  - rewrite !omap_cons_eq. by rewrite IH.
  - rewrite IH, omap_cons_eq.
    assert (downloadRequest e = None) as ->; [|done].
    unfold downloadRequest.
    destruct (decide (it_type e = "file")) as [Hty|]; [|done].
    destruct (it_download_url e) as [u|] eqn:Hu; [|done].
    destruct (decide (u = "")) as [|Hne]; [done|].
    exfalso. apply He. left. split; [done|]. rewrite Hu.
    apply truthy_Some. by exists u.
Qed.

Lemma dirEntries_relevant (items : list Item) :
  filter (λ e, truthy (it_path e) = true) (dirEntries (filter relevant items))
  = filter (λ e, truthy (it_path e) = true) (dirEntries items).
Proof.
  unfold dirEntries. induction items as [|e items IH]; [done|].
  rewrite !filter_cons. destruct (decide (relevant e)) as [He|He].
  - rewrite filter_cons. destruct (decide (it_type e = "dir")); [|done].
    rewrite !filter_cons. by rewrite IH.
  - rewrite IH. destruct (decide (it_type e = "dir")) as [Hty|]; [|done].
    rewrite filter_cons. rewrite decide_False; [done|].
    intros Hp. apply He. right. by split.
Qed.

Lemma fetchFolderContents_listing (source p : string) (st st1 : State)
    (sub : list Item) :
  fetchFolderContents githubTokens net source p st = (Returns (Some sub), st1) →
  ∃ h r, net {| url := contentsUrl source p; headers := h |} = Resolved r
         ∧ ok r = true ∧ json r = Yields (JArray sub).
Proof.
  unfold fetchFolderContents, bind at 1.
  rewrite getGitHubHeaders_rotator. unfold bind at 1, fetch.
  destruct (net _) as [msg|r] eqn:Hnet; [done|].
  destruct (status r =? 403); [done|].
  destruct (ok r) eqn:Hok; [|done]. cbn [negb].
  unfold bind, respJson. destruct (json r) as [msg|[l|m t]] eqn:Hj; [done| |done].
  intros [= <- _]. by eexists _, r.
Qed.

(** More fuel never changes an outcome that was reached. *)
Lemma forEachDir_fuel (recur recur' : list Item → M (list FileRecord))
    (source : string) (dirs : list Item) :
  (∀ items st o st', recur items st = (o, st') → o ≠ OutOfFuel →
                     recur' items st = (o, st')) →
  ∀ files st o st',
    forEachDir githubTokens net recur source dirs files st = (o, st') →
    o ≠ OutOfFuel →
    forEachDir githubTokens net recur' source dirs files st = (o, st').
Proof.
  intros Hrec. induction dirs as [|d dirs IH]; intros files st o st' Hrun Ho;
    [done|].
  cbn [forEachDir] in *. destruct (negb _); [by apply IH|].
  unfold bind at 1 in Hrun. unfold bind at 1.
  destruct (fetchFolderContents _ _ _ _ _) as [[[sub|]|msg|] st1];
    [|by apply IH|done..].
  unfold bind at 1 in Hrun. unfold bind at 1.
  destruct (recur sub st1) as [[subFiles|msg|] st2] eqn:Hsub.
  - rewrite (Hrec _ _ _ _ Hsub) by done. by apply IH.
  - rewrite (Hrec _ _ _ _ Hsub) by done. done.
  - by injection Hrun as <- _.
Qed.

Lemma collectFiles_fuel_step (fuel : nat) (source : string) :
  ∀ items st o st',
    collectFiles githubTokens net fuel source items st = (o, st') →
    o ≠ OutOfFuel →
    collectFiles githubTokens net (S fuel) source items st = (o, st').
Proof.
  induction fuel as [|fuel IH]; intros items st o st' Hrun Ho.
  - by injection Hrun as <- _.
  - rewrite collectFiles_unfold in *. by eapply forEachDir_fuel.
Qed.

Lemma forEachDir_within (recur : list Item → M (list FileRecord))
    (source : string) (P : list Item → Prop) (dirs : list Item) :
  (∀ sub st, P sub → fst (recur sub st) ≠ OutOfFuel) →
  (∀ e p h r sub,
      e ∈ dirs → it_path e = Some p → p ≠ "" →
      net {| url := contentsUrl source p; headers := h |} = Resolved r →
      ok r = true → json r = Yields (JArray sub) → P sub) →
  ∀ files st,
    fst (forEachDir githubTokens net recur source dirs files st) ≠ OutOfFuel.
Proof.
  intros Hrec. induction dirs as [|d dirs IH]; intros Hdirs files st; [done|].
  assert (Htail : ∀ files st,
            fst (forEachDir githubTokens net recur source dirs files st)
            ≠ OutOfFuel).
  { apply IH. intros e p h r sub He. apply Hdirs. by right. }
  cbn [forEachDir]. destruct (truthy (it_path d)) eqn:Hd; cbn [negb];
    [|apply Htail].
  apply truthy_Some in Hd as (p & Hp & Hne). rewrite Hp. cbn [from_option].
  unfold Datatypes.id, bind at 1.
  destruct (fetchFolderContents _ _ _ _ _) as [[[sub|]|msg|] st1] eqn:Hls;
    [|apply Htail|done|].
  - apply fetchFolderContents_listing in Hls as (h & r & Hnet & Hok & Hj).
    assert (Hsub : P sub) by (eapply (Hdirs d); [left|done..]).
    unfold bind at 1. specialize (Hrec sub st1 Hsub).
    destruct (recur sub st1) as [[subFiles|msg|] st2]; [apply Htail|done..].
  - exfalso. revert Hls. unfold fetchFolderContents, bind at 1.
    rewrite getGitHubHeaders_rotator. unfold bind at 1, fetch.
    destruct (net _); [done|]. destruct (_ =? 403); [done|].
    destruct (negb _); [done|]. unfold bind, respJson.
    by destruct (json r).
Qed.

Lemma collectFiles_within (source : string) (d : nat) :
  ∀ items st,
    withinDepth net source d items →
    fst (collectFiles githubTokens net (S d) source items st) ≠ OutOfFuel.
Proof.
  induction d as [|d IH]; intros items st Hd; rewrite collectFiles_unfold.
  - apply (forEachDir_within _ _ (λ _, False)); [done|].
    intros e p h r sub He Hp Hne Hnet Hok Hj.
    apply list_elem_of_filter in He as [Hty He].
    by apply (Hd e p h r sub).
  - apply (forEachDir_within _ _ (withinDepth net source d)).
    + intros sub st1. apply IH.
    + intros e p h r sub He Hp Hne Hnet Hok Hj.
      apply list_elem_of_filter in He as [Hty He].
      by apply (Hd e p h r sub).
Qed.

End CollectorMore.

(** The collector starts with the downloads: one request without headers
    per file entry that has a download reference, in listing order, before
    any sub-directory is listed. On a listing without sub-directories these
    are all its requests, the cursor of the rotator is untouched, and the
    records of the successful downloads are returned. *)
Theorem collectFiles_downloads_first :
  ∀ (githubTokens : list string) (net : Request → FetchOutcome)
    (fuel : nat) (source : string) (items : list Item) (st : State),
    (∃ later,
        issued (snd (collectFiles githubTokens net (S fuel) source items st))
        = issued st ++ downloadRequests items ++ later)
    ∧ (dirEntries items = [] →
       collectFiles githubTokens net (S fuel) source items st
       = (Returns (directFiles net items),
          {| tokenIndex := tokenIndex st;
             issued := issued st ++ downloadRequests items |})).
Proof.
  intros tokens net fuel source items st. rewrite collectFiles_unfold. split.
  - destruct (forEachDir _ _ _ _ _ _ _) as [o st'] eqn:Hrun.
    apply (Traced_forEachDir tokens net) in Hrun as (later & Hl & _);
      [|apply Traced_collectFiles].
    exists later. cbn [snd]. rewrite Hl. cbn [withRequests issued].
    by rewrite app_assoc.
  - intros ->. reflexivity.
Qed.

Lemma collectFiles_downloads_first_witness :
  dirEntries Fixtures.threeFiles = []
  ∧ issued (snd (collectFiles [] Fixtures.rawNet 1 "acme/skills"
                   Fixtures.threeFiles initialState))
    = [ {| url := "raw/pdf/SKILL.md"; headers := ∅ |};
        {| url := "raw/pdf/forms.md"; headers := ∅ |} ].
Proof.
  split; [vm_compute; reflexivity|].
  rewrite (proj2 (collectFiles_downloads_first [] Fixtures.rawNet 0
                    "acme/skills" Fixtures.threeFiles initialState))
    by (vm_compute; reflexivity).
  reflexivity.
Defined.

(** Entries the collector does not act on leave no trace: a listing and
    the same listing without its entries of other types, its files without
    a download reference and its directories without a path give the same
    outcome and the same state. *)
Theorem collectFiles_ignores_other_entries :
  ∀ (githubTokens : list string) (net : Request → FetchOutcome)
    (fuel : nat) (source : string) (items : list Item) (st : State),
    collectFiles githubTokens net fuel source (filter relevant items) st
    = collectFiles githubTokens net fuel source items st.
Proof.
  intros tokens net fuel source items st. destruct fuel as [|fuel]; [done|].
  rewrite !collectFiles_unfold, directFiles_relevant,
    downloadRequests_relevant.
  rewrite forEachDir_skips, (forEachDir_skips _ _ _ _ (dirEntries items)).
  by rewrite dirEntries_relevant.
Qed.

(** Fuel only bounds the depth of the recursion. An outcome reached with
    some fuel is the outcome with any larger fuel; and when the directory
    tree below a listing is at most [d] levels deep, [d + 1] units of fuel
    are enough for the collector to return or throw. *)
Theorem collectFiles_fuel_is_depth :
  ∀ (githubTokens : list string) (net : Request → FetchOutcome)
    (source : string) (items : list Item) (st : State),
    (∀ fuel more o st',
        collectFiles githubTokens net fuel source items st = (o, st') →
        o ≠ OutOfFuel →
        collectFiles githubTokens net (fuel + more) source items st = (o, st'))
    ∧ (∀ d, withinDepth net source d items →
            fst (collectFiles githubTokens net (S d) source items st)
            ≠ OutOfFuel).
Proof.
  intros tokens net source items st. split.
  - intros fuel more o st' Hrun Ho.
    induction more as [|more IH]; [by rewrite Nat.add_0_r|].
    rewrite Nat.add_succ_r. by apply collectFiles_fuel_step.
  - intros d. apply collectFiles_within.
Qed.

Lemma collectFiles_fuel_is_depth_witness :
  withinDepth MoreFixtures.servedNet "acme/skills" 1 MoreFixtures.servedListing
  ∧ fst (collectFiles [] MoreFixtures.servedNet 2 "acme/skills"
           MoreFixtures.servedListing initialState) ≠ OutOfFuel.
Proof.
  assert (H : withinDepth MoreFixtures.servedNet "acme/skills" 1
                MoreFixtures.servedListing).
  { intros e p h r sub He Hty Hp Hne Hnet Hok Hj.
    repeat (apply elem_of_cons in He as [->|He]); try done.
    - injection Hp as <-. injection Hnet as <-. injection Hj as <-.
      intros e' p' h' r' sub' He' Hty'.
      apply elem_of_cons in He' as [->|He']; [discriminate Hty'|].
      by apply not_elem_of_nil in He'.
    - by apply not_elem_of_nil in He. }
  split; [exact H|].
  apply (proj2 (collectFiles_fuel_is_depth [] MoreFixtures.servedNet
                  "acme/skills" MoreFixtures.servedListing initialState) 1 H).
Defined.

(* ===================================================================== *)
(** ** The search tool *)
(* ===================================================================== *)

Lemma take_length (n : nat) (s : string) :
  String.length (Js.take n s) = Nat.min n (String.length s).
Proof.
  revert s. induction n as [|n IH]; intros [|c s]; try done.
  cbn [Js.take String.length]. by rewrite IH.
Qed.

Section SearchFacts.
Variable skillsNet : Request → SearchOutcome.
Variables statusPrefix catchPrefix : string.

(** The state after a search: one more request, the cursor untouched. *)
Lemma searchSkillsWith_run (query : string) (limit : option nat) (st : State) :
  let rq := {| url := searchUrl query (default 100 limit);
               headers := SKILLS_HEADERS |} in
  let st1 := {| tokenIndex := tokenIndex st; issued := issued st ++ [rq] |} in
  searchSkillsWith skillsNet statusPrefix catchPrefix query limit st
  = (Returns
       match skillsNet rq with
       | SearchRejected msg => SearchFailed (catchPrefix +:+ msg)
       | SearchResolved resp =>
           if sr_ok resp then
             match sr_json resp with
             | Yields data =>
                 SearchFound query (length (skillListOf data))
                   (toSkill <$> skillListOf data)
             | Fails msg => SearchFailed (catchPrefix +:+ msg)
             end
           else
             match sr_text resp with
             | Yields body =>
                 SearchFailed
                   (statusPrefix +:+ "skills.sh API returned "
                    +:+ Js.showNat (sr_status resp) +:+ ": "
                    +:+ Js.take 500 body)
             | Fails msg => SearchFailed (catchPrefix +:+ msg)
             end
       end, st1).
Proof.
  intros rq st1. unfold searchSkillsWith, tryCatch, bind at 1, fetchSkills.
  fold rq. fold st1. destruct (skillsNet rq) as [msg|resp]; [done|].
  destruct (sr_ok resp); cbn [negb].
  - unfold bind, searchJson. destruct (sr_json resp); [done|].
    unfold ret. by rewrite length_fmap.
  - unfold bind, searchText. by destruct (sr_text resp).
Qed.

End SearchFacts.



(** When the index service refuses a search, the error text quotes the
    status code and at most the first 500 code units of the body. *)
Theorem search_error_quotes_500 :
  ∀ (skillsNet : Request → SearchOutcome) (query : string)
    (limit : option nat) (st : State) (resp : SearchResponse) (body : string),
    skillsNet {| url := searchUrl query (default 100 limit);
                 headers := SKILLS_HEADERS |} = SearchResolved resp →
    sr_ok resp = false → sr_text resp = Yields body →
    ∃ shown cut,
      body = shown +:+ cut
      ∧ String.length shown = Nat.min 500 (String.length body)
      ∧ fst (HttpTools.searchSkills skillsNet query limit st)
        = Returns (SearchFailed
                     ("skills.sh API returned " +:+ Js.showNat (sr_status resp)
                      +:+ ": " +:+ shown))
      ∧ fst (StdioTools.searchSkills skillsNet query limit st)
        = Returns (SearchFailed
                     ("Error: skills.sh API returned "
                      +:+ Js.showNat (sr_status resp) +:+ ": " +:+ shown)).
Proof.
  intros net query limit st resp body Hnet Hok Htext.
  exists (Js.take 500 body), (Js.drop 500 body).
  split; [by rewrite take_drop|]. split; [apply take_length|].
  unfold HttpTools.searchSkills, StdioTools.searchSkills.
  rewrite !searchSkillsWith_run. cbv zeta. by rewrite Hnet, Hok, Htext.
Qed.

Lemma search_error_quotes_500_witness :
  fst (StdioTools.searchSkills MoreFixtures.downNet "pdf forms" None
         initialState)
  = Returns (SearchFailed "Error: skills.sh API returned 503: Service Unavailable").
Proof.
  destruct (search_error_quotes_500 MoreFixtures.downNet "pdf forms" None
              initialState
              {| sr_status := 503; sr_text := Yields "Service Unavailable";
                 sr_json := Fails "not JSON" |}
              "Service Unavailable" eq_refl eq_refl eq_refl)
    as (shown & cut & Hbody & Hlen & _ & Hrun).
  rewrite Hrun. do 2 f_equal.
  assert (shown = "Service Unavailable") as ->; [|reflexivity].
  pose proof (take_app_length shown cut) as Htake.
  rewrite <- Hbody, Hlen in Htake. by rewrite <- Htake.
Defined.

(* ===================================================================== *)
(** ** Identifiers: from the search results to the orchestrator *)
(* ===================================================================== *)




Section FirstRequest.
Variable githubTokens : list string.
Variable net : Request → FetchOutcome.




End FirstRequest.



Lemma countChar_app (c : ascii) (a b : string) :
  countChar c (a +:+ b) = countChar c a + countChar c b.
Proof.
  induction a as [|x a IH]; [by rewrite string_app_nil_l|].
  rewrite string_app_cons. cbn [countChar]. rewrite IH. lia.
Qed.

(** No piece of a split holds the separator. *)
Lemma split_pieces_clean (c : ascii) (s : string) :
  Forall (λ p, countChar c p = 0) (Js.split c s).
Proof.
  induction s as [|a s IH]; [by repeat constructor|].
  cbn [Js.split]. destruct (Ascii.eqb a c) eqn:Hac.
  - by constructor.
  - destruct (Js.split c s) as [|p ps].
    { constructor; [|constructor]. cbn [countChar]. by rewrite Hac. }
    inversion IH as [|? ? Hp Hps]; subst. constructor; [|done].
    cbn [countChar]. by rewrite Hac.
Qed.




(* ===================================================================== *)
(** ** The token pool read from the environment *)
(* ===================================================================== *)

Lemma trimStart_head (s : string) (c : ascii) (rest : string) :
  JsMore.trimStart s = String c rest → JsMore.isWhiteSpace c = false.
Proof.
  induction s as [|a s IH]; [done|]. cbn [JsMore.trimStart].
  destruct (JsMore.isWhiteSpace a) eqn:Ha; [done|]. by intros [= <- _].
Qed.

Lemma trimEnd_head (s : string) (c : ascii) (rest : string) :
  JsMore.trimEnd s = String c rest → ∃ rest', s = String c rest'.
Proof.
  destruct s as [|a s]; [done|]. cbn [JsMore.trimEnd].
  destruct (JsMore.trimEnd s); [destruct (JsMore.isWhiteSpace a)|];
    intros [= <- _]; by eexists.
Qed.

Lemma trimEnd_last (s : string) :
  ∀ front c, JsMore.trimEnd s = front +:+ String c "" →
             JsMore.isWhiteSpace c = false.
Proof.
  induction s as [|a s IH]; intros front c.
  - cbn [JsMore.trimEnd]. by destruct front.
  - cbn [JsMore.trimEnd]. destruct (JsMore.trimEnd s) as [|d t].
    + destruct (JsMore.isWhiteSpace a) eqn:Ha; [by destruct front|].
      destruct front as [|x [|y front]]; [by intros [= <-] | done..].
    + destruct front as [|x front]; [done|].
      rewrite string_app_cons. intros [= _ Hrest]. by eapply IH.
Qed.

Lemma trimmed_trim (s : string) : trimmed (JsMore.trim s).
Proof.
  unfold JsMore.trim. split.
  - intros c rest Heq. destruct (trimEnd_head _ _ _ Heq) as [rest' Hs].
    by eapply trimStart_head.
  - intros front c. apply trimEnd_last.
Qed.

Lemma filterBoolean_nil (l : list string) :
  Js.filterBoolean l = [] ↔ Forall (λ s, s = "") l.
Proof.
  unfold Js.filterBoolean. induction l as [|x l IH]; [by split; constructor|].
  rewrite filter_cons. destruct (decide (x ≠ "")) as [Hx|Hx].
  - split; [done|]. by inversion 1.
  - apply dec_stable in Hx. rewrite IH. split.
    + by constructor.
    + by inversion 1.
Qed.

Lemma filterBoolean_all (l : list string) :
  Forall (λ s, s ≠ "") (Js.filterBoolean l).
Proof.
  unfold Js.filterBoolean. apply Forall_forall. intros x Hx.
  by apply list_elem_of_filter in Hx as [? _].
Qed.

Lemma filterBoolean_trim (l : list string) :
  Js.filterBoolean (JsMore.trim <$> l)
  = JsMore.trim <$> filter (λ p, JsMore.trim p ≠ "") l.
Proof.
  unfold Js.filterBoolean. induction l as [|x l IH]; [done|].
  rewrite fmap_cons, !filter_cons.
  destruct (decide (JsMore.trim x ≠ "")); by rewrite IH.
Qed.

Lemma countChar_trimStart (c : ascii) (s : string) :
  countChar c (JsMore.trimStart s) ≤ countChar c s.
Proof.
  induction s as [|a s IH]; [done|]. cbn [JsMore.trimStart].
  destruct (JsMore.isWhiteSpace a); [cbn [countChar]; lia | done].
Qed.

Lemma countChar_trimEnd (c : ascii) (s : string) :
  countChar c (JsMore.trimEnd s) ≤ countChar c s.
Proof.
  induction s as [|a s IH]; [done|]. cbn [JsMore.trimEnd].
  destruct (JsMore.trimEnd s) as [|d t].
  - destruct (JsMore.isWhiteSpace a); cbn [countChar]; lia.
  - cbn [countChar] in *. lia.
Qed.

Lemma countChar_trim (c : ascii) (s : string) :
  countChar c s = 0 → countChar c (JsMore.trim s) = 0.
Proof.
  intros Hs. unfold JsMore.trim.
  pose proof (countChar_trimEnd c (JsMore.trimStart s)).
  pose proof (countChar_trimStart c s). lia.
Qed.

(** The token pool, whatever the two environment variables hold: every
    token is non-empty and neither starts nor ends with white space; the
    pool is empty exactly when every comma-separated piece of
    GITHUB_TOKENS and the whole of GITHUB_TOKEN are blank; and as soon as
    one piece of GITHUB_TOKENS is not blank, the pool consists of the
    trimmed non-blank pieces in their order, none of which holds a comma,
    and GITHUB_TOKEN is not looked at. *)
Theorem token_pool_is_clean :
  ∀ (GITHUB_TOKENS GITHUB_TOKEN : option string),
    let pieces := Js.split "," (default "" GITHUB_TOKENS) in
    let pool := readGithubTokens GITHUB_TOKENS GITHUB_TOKEN in
    Forall (λ t, t ≠ "" ∧ trimmed t) pool
    ∧ (pool = [] ↔ Forall blank pieces ∧ blank (default "" GITHUB_TOKEN))
    ∧ (¬ Forall blank pieces →
       pool = JsMore.trim <$> filter (λ p, JsMore.trim p ≠ "") pieces
       ∧ Forall (λ t, countChar "," t = 0) pool
       ∧ ∀ other, readGithubTokens GITHUB_TOKENS other = pool).
Proof.
  intros TOKENS TOKEN pieces pool. subst pool. unfold readGithubTokens.
  fold pieces. cbv zeta.
  pose proof (filterBoolean_nil (JsMore.trim <$> pieces)) as Hnil.
  rewrite Forall_fmap in Hnil.
  pose proof (filterBoolean_all (JsMore.trim <$> pieces)) as Hall.
  pose proof (filterBoolean_trim pieces) as Htrim.
  assert (Hcl : Forall (λ t, t ≠ "" ∧ trimmed t)
                  (Js.filterBoolean (JsMore.trim <$> pieces))).
  { rewrite Htrim. apply Forall_fmap, Forall_forall. intros p Hp.
    apply list_elem_of_filter in Hp as [Hp _]. split; [done|].
    apply trimmed_trim. }
  destruct (Js.filterBoolean (JsMore.trim <$> pieces)) as [|t ts] eqn:Htok.
  - assert (Hblank : Forall blank pieces) by by apply Hnil.
    cbn [length Nat.ltb Nat.leb].
    destruct (String.eqb_spec (JsMore.trim (default "" TOKEN)) "") as [He|He];
      cbn [negb].
    + split; [constructor|]. split; [done|]. by intros [].
    + split; [constructor; [split; [done | apply trimmed_trim] | constructor]|].
      split; [|by intros []]. split; [done|]. by intros [_ ?].
  - cbn [length]. change (0 <? S (length ts)) with true. cbv iota.
    split; [done|]. split.
    + split; [done|]. intros [Hb _]. by apply Hnil in Hb.
    + intros _. split; [done|]. split; [|done].
      rewrite Htrim. apply Forall_fmap, Forall_forall. intros p Hp.
      apply list_elem_of_filter in Hp as [_ Hp]. apply countChar_trim.
      pose proof (split_pieces_clean "," (default "" TOKENS)) as Hclean.
      rewrite Forall_forall in Hclean. by apply Hclean.
Qed.

Lemma token_pool_is_clean_witness :
  readGithubTokens (Some " ghp_a , ,ghp_b") (Some "ghp_c") = ["ghp_a"; "ghp_b"]
  ∧ readGithubTokens (Some " , ") (Some " ghp_c ") = ["ghp_c"].
Proof.
  split; [|reflexivity].
  destruct (proj2 (proj2 (token_pool_is_clean (Some " ghp_a , ,ghp_b")
                            (Some "ghp_c")))) as (Hpool & _).
  - intros Hblank. apply Forall_inv in Hblank. discriminate Hblank.
  - rewrite Hpool. reflexivity.
Defined.

(* ===================================================================== *)
(** ** The search URL *)
(* ===================================================================== *)

Lemma formEncodeUnit_reserved (c r : ascii) :
  r ∈ ["&"; "="; "#"; "?"; "/"; " "]%char →
  countChar r (JsMore.formEncodeUnit c) = 0.
Proof.
  intros Hr.
  assert (H : forallb (λ x, forallb (λ y,
                 countChar y (JsMore.formEncodeUnit x) =? 0)
                 ["&"; "="; "#"; "?"; "/"; " "]%char)
                (ascii_of_nat <$> seq 0 256) = true)
    by (vm_compute; reflexivity).
  rewrite forallb_forall in H.
  specialize (H c (proj1 (list_elem_of_In _ _) (all_ascii_covers c))).
  rewrite forallb_forall in H.
  specialize (H r (proj1 (list_elem_of_In _ _) Hr)).
  by apply Nat.eqb_eq in H.
Qed.

Lemma formEncode_reserved (s : string) (r : ascii) :
  r ∈ ["&"; "="; "#"; "?"; "/"; " "]%char →
  countChar r (JsMore.formEncode s) = 0.
Proof.
  intros Hr. induction s as [|c s IH]; [done|].
  cbn [JsMore.formEncode]. by rewrite countChar_app, formEncodeUnit_reserved, IH.
Qed.

(** The query string of a search has exactly the two parameters q and
    limit, whatever the query holds: its encoded form contains no
    ampersand, equals sign, hash, question mark, slash or space, so a
    query can neither add nor override a parameter; the text before the
    question mark is the address of the index service. *)
Theorem search_url_has_two_parameters :
  ∀ (query : string) (effectiveLimit : nat),
    let q := JsMore.formEncode query in
    let l := JsMore.formEncode (Js.showNat effectiveLimit) in
    Js.split "?" (searchUrl query effectiveLimit)
    = [SKILLS_API_URL; "q=" +:+ q +:+ "&limit=" +:+ l]
    ∧ Js.split "&" ("q=" +:+ q +:+ "&limit=" +:+ l)
      = ["q=" +:+ q; "limit=" +:+ l]
    ∧ Js.split "=" ("q=" +:+ q) = ["q"; q]
    ∧ Js.split "=" ("limit=" +:+ l) = ["limit"; l]
    ∧ Forall (λ r, countChar r q = 0) ["&"; "="; "#"; "?"; "/"; " "]%char.
Proof.
  intros query limit q l.
  assert (Hq : ∀ r, r ∈ ["&"; "="; "#"; "?"; "/"; " "]%char → countChar r q = 0)
    by (intros r Hr; by apply formEncode_reserved).
  assert (Hl : ∀ r, r ∈ ["&"; "="; "#"; "?"; "/"; " "]%char → countChar r l = 0)
    by (intros r Hr; by apply formEncode_reserved).
  assert (Hin : ∀ r, r ∈ ["&"; "="; "#"; "?"; "/"; " "]%char
                     ↔ r = "&"%char ∨ r = "="%char ∨ r = "#"%char
                       ∨ r = "?"%char ∨ r = "/"%char ∨ r = " "%char).
  { intros r. rewrite !elem_of_cons, elem_of_nil. tauto. }
  split; [|split; [|split; [|split]]].
  - unfold searchUrl. fold q l.
    change (SKILLS_API_URL +:+ "?" +:+ "q=" +:+ q +:+ "&limit=" +:+ l)
      with (SKILLS_API_URL +:+ String "?" ("q=" +:+ q +:+ "&limit=" +:+ l)).
    rewrite split_app_separator.
    rewrite (split_no_separator "?" SKILLS_API_URL) by reflexivity.
    rewrite split_no_separator; [done|].
    change ("q=" +:+ q +:+ "&limit=" +:+ l)
      with (String "q" (String "=" (q +:+ "&limit=" +:+ l))).
    cbn [countChar]. rewrite countChar_app.
    change ("&limit=" +:+ l)
      with (String "&" (String "l" (String "i" (String "m" (String "i"
             (String "t" (String "=" l))))))).
    cbn [countChar]. rewrite Hq, Hl by (apply Hin; tauto). reflexivity.
  - change ("q=" +:+ q +:+ "&limit=" +:+ l)
      with (String "q" (String "=" q) +:+ String "&" ("limit=" +:+ l)).
    rewrite split_app_separator.
    rewrite (split_no_separator "&" (String "q" (String "=" q)))
      by (cbn [countChar]; rewrite Hq by (apply Hin; tauto); reflexivity).
    rewrite (split_no_separator "&" ("limit=" +:+ l)); [done|].
    change ("limit=" +:+ l)
      with (String "l" (String "i" (String "m" (String "i"
             (String "t" (String "=" l)))))).
    cbn [countChar]. rewrite Hl by (apply Hin; tauto). reflexivity.
  - change ("q=" +:+ q) with ("q" +:+ String "=" q).
    rewrite split_app_separator.
    by rewrite (split_no_separator "=" q) by (apply Hq, Hin; tauto).
  - change ("limit=" +:+ l) with ("limit" +:+ String "=" l).
    rewrite split_app_separator.
    by rewrite (split_no_separator "=" l) by (apply Hl, Hin; tauto).
  - apply Forall_forall. intros r Hr. by apply Hq.
Qed.
